(** * Tag-criteria matching of pgn-extract: a shallow embedding of lists.c

    The development follows the source file top to bottom: the C library
    facilities it relies on, the soundex encoder, the criterion registry
    (TagLists), the scalar matchers (dates, Elo values, time controls), the
    generic matcher check_list and the record selector
    check_tag_details_not_ECO / check_ECO_tag / check_setup_tag.

    C strings are modelled by [string] (the terminating NUL is the end of
    the Rocq string), [int] and [unsigned] by [Z] with the 32-bit
    wrap-around written out, arrays by lists read with stdpp's lookup. *)

From stdpp Require Import base list strings.
From Stdlib Require Import ZArith Ascii String DecimalString QArith Lia.

Local Open Scope string_scope.
Local Open Scope Z_scope.

(** ** <ctype.h> in the C locale *)

Module Ctype.

Definition code (c : ascii) : Z := Z.of_N (N_of_ascii c).

Definition isdigit (c : ascii) : bool := (48 <=? code c) && (code c <=? 57).
Definition isupper (c : ascii) : bool := (65 <=? code c) && (code c <=? 90).
Definition islower (c : ascii) : bool := (97 <=? code c) && (code c <=? 122).
Definition isalpha (c : ascii) : bool := isupper c || islower c.

(** Blank, and the five control characters from horizontal tab to
    carriage return. *)
Definition isspace (c : ascii) : bool :=
  (code c =? 32) || ((9 <=? code c) && (code c <=? 13)).

Definition toupper (c : ascii) : ascii :=
  if islower c then ascii_of_N (Z.to_N (code c - 32)) else c.
Definition tolower (c : ascii) : ascii :=
  if isupper c then ascii_of_N (Z.to_N (code c + 32)) else c.

End Ctype.
Export Ctype.

(** ** <string.h> *)

Module Cstring.

(** [strncmp (s, p, strlen (p)) == 0]: [p] is an initial segment of [s]. *)
Definition starts_with (s p : string) : bool := String.prefix p s.

(** [strstr (s, p) != NULL]. *)
Fixpoint strstr (s p : string) : bool :=
  starts_with s p ||
  match s with
  | EmptyString => false
  | String _ s' => strstr s' p
  end.

(** [strchr (s, c) != NULL]. *)
Fixpoint strchr (s : string) (c : ascii) : option string :=
  match s with
  | EmptyString => None
  | String d s' => if Ascii.eqb d c then Some s else strchr s' c
  end.

(** The effect of [sep = strchr (s, c); if (sep != NULL) *sep = 0] on the
    string that starts at [s]. *)
Fixpoint cut_at (c : ascii) (s : string) : string :=
  match s with
  | EmptyString => EmptyString
  | String d s' => if Ascii.eqb d c then EmptyString else String d (cut_at c s')
  end.

(** [*s]: the first character, NUL at the end of the string. *)
Definition head_char (s : string) : ascii :=
  match s with
  | String c _ => c
  | EmptyString => Ascii.zero
  end.

(** [s + 1], used where [*s] is not NUL. *)
Definition advance (s : string) : string :=
  match s with
  | String _ s' => s'
  | EmptyString => EmptyString
  end.

Definition is_empty (s : string) : bool :=
  match s with
  | EmptyString => true
  | String _ _ => false
  end.

Fixpoint map_chars (f : ascii -> ascii) (s : string) : string :=
  match s with
  | EmptyString => EmptyString
  | String c s' => String (f c) (map_chars f s')
  end.

Definition upcase (s : string) : string := map_chars toupper s.
Definition downcase (s : string) : string := map_chars tolower s.

End Cstring.
Export Cstring.

(** ** The soundex encoder *)

Definition MAXSOUNDEX : nat := 50.

(**                             ABCDEFGHIJKLMNOPQRSTUVWXYZ *)
Definition mapping : string := "01230120002455012622011202".

(** [mapping[ch - 'A']]; the index is in range for every upper-case letter,
    the only arguments the encoder passes. *)
Definition translate (ch : ascii) : ascii :=
  match String.get (Z.to_nat (code ch - code "A")) mapping with
  | Some t => t
  | None => "0"%char
  end.

(** The while loop of soundex: [str] is the unread input, [sindex] the number
    of symbols already in sbuf, [lastc] the last symbol written; the result
    is what the loop appends to sbuf. *)
Fixpoint soundex_scan (str : string) (sindex : nat) (lastc : ascii) : string :=
  match str with
  | EmptyString => EmptyString
  | String ch str' =>
      if (sindex <? MAXSOUNDEX)%nat then
        if isalpha ch && negb (Ascii.eqb ch lastc) then
          let ch := if islower ch then toupper ch else ch in
          let translation := translate ch in
          if negb (Ascii.eqb translation "0") && negb (Ascii.eqb translation lastc)
          then String translation (soundex_scan str' (S sindex) translation)
          else soundex_scan str' sindex lastc
        else soundex_scan str' sindex lastc
      else EmptyString
  end.

Definition soundex (str : string) : string :=
  match str with
  | EmptyString => EmptyString
  | String c str' =>
      let initial_letter := if islower c then toupper c else c in
      if Ascii.eqb initial_letter "Y" || Ascii.eqb initial_letter "J"
      then String "7" (soundex_scan str' 1 " ")
      else soundex_scan str 0 " "
  end.

(** ** The numeric-literal scan at the head of check_list *)

Fixpoint skip_digits_and_dots (t : string) : string :=
  match t with
  | String c t' => if isdigit c || Ascii.eqb c "." then skip_digits_and_dots t' else t
  | EmptyString => EmptyString
  end.

Definition skip_sign (t : string) : string :=
  match t with
  | String c t' => if Ascii.eqb c "+" || Ascii.eqb c "-" then t' else t
  | EmptyString => EmptyString
  end.

Definition tag_string_is_numeric (search_str : string) : bool :=
  match skip_digits_and_dots (skip_sign search_str) with
  | EmptyString => true
  | String _ _ => false
  end.

(** ** <stdio.h>: the conversions of sscanf that lists.c uses *)

Module Scan.

(** An [unsigned] holds its value modulo 2^32. A conversion whose value does
    not fit is outside what ISO C defines; the model keeps the low 32 bits. *)
Definition to_unsigned (z : Z) : Z := z mod 2 ^ 32.

Fixpoint skip_spaces (s : string) : string :=
  match s with
  | String c s' => if isspace c then skip_spaces s' else s
  | EmptyString => EmptyString
  end.

Definition digit_value (c : ascii) : Z := code c - code "0".

Fixpoint scan_digits (s : string) (acc : Z) : Z * string :=
  match s with
  | String c s' => if isdigit c then scan_digits s' (10 * acc + digit_value c) else (acc, s)
  | EmptyString => (acc, EmptyString)
  end.

(** One %u directive: white space is skipped, a sign is accepted, at least
    one digit is required. The result is the converted value and the unread
    input, or [None] on a matching failure. *)
Definition scan_unsigned (s : string) : option (Z * string) :=
  let s1 := skip_spaces s in
  let '(negative, s2) :=
    match s1 with
    | String c r =>
        if Ascii.eqb c "-" then (true, r)
        else if Ascii.eqb c "+" then (false, r)
        else (false, s1)
    | EmptyString => (false, s1)
    end in
  match s2 with
  | String c _ =>
      if isdigit c then
        let '(v, rest) := scan_digits s2 0 in
        Some (to_unsigned (if negative then - v else v), rest)
      else None
  | EmptyString => None
  end.

(** [sscanf (s, "%u", &x) == 1], with the value stored in [x]. *)
Definition sscanf_u (s : string) : option Z :=
  match scan_unsigned s with
  | Some (v, _) => Some v
  | None => None
  end.

(** [sscanf (s, "%*u.%u.%u", &month, &day)]: the two variables after the
    call, given their values [month] and [day] before it. *)
Definition sscanf_month_day (s : string) (month day : Z) : Z * Z :=
  match scan_unsigned s with
  | Some (_, String c1 r1) =>
      if Ascii.eqb c1 "." then
        match scan_unsigned r1 with
        | Some (m, String c2 r2) =>
            if Ascii.eqb c2 "." then
              match scan_unsigned r2 with
              | Some (d, _) => (m, d)
              | None => (m, day)
              end
            else (m, day)
        | Some (m, EmptyString) => (m, day)
        | None => (month, day)
        end
      else (month, day)
  | _ => (month, day)
  end.

End Scan.
Export Scan.

(** ** The platform: binary64 numbers, strtod and POSIX regex

    lists.c compares [double]s, fills them through sscanf's %lf and calls
    regcomp and regexec. None of these is defined by the repository, so they
    are taken as a parameter. The only facts used about them are that the
    conversion of an [unsigned] to [double] is exact and that comparisons of
    such values agree with the integers; [>], [>=] and [!=] are read as the
    mirrored [<], [<=] and the negated [==], as IEEE 754 has them. *)
Class Libc : Type := {
  double : Type;
  double_lt : double -> double -> bool;
  double_le : double -> double -> bool;
  double_eq : double -> double -> bool;
  (** [(double) u] for an [unsigned u]. *)
  double_of_unsigned : Z -> double;
  (** [sscanf (s, "%lf", &x) == 1], with the value stored in [x]. *)
  sscanf_lf : string -> option double;
  regex_t : Type;
  (** [regcomp (&regex, pattern, 0) == 0], with the compiled [regex]. *)
  regcomp : string -> option regex_t;
  (** [regexec (&regex, subject, 0, NULL, 0) == 0]. *)
  regexec : regex_t -> string -> bool;
  double_lt_unsigned a b :
    0 <= a < 2 ^ 32 -> 0 <= b < 2 ^ 32 ->
    double_lt (double_of_unsigned a) (double_of_unsigned b) = (a <? b);
  double_le_unsigned a b :
    0 <= a < 2 ^ 32 -> 0 <= b < 2 ^ 32 ->
    double_le (double_of_unsigned a) (double_of_unsigned b) = (a <=? b);
  double_eq_unsigned a b :
    0 <= a < 2 ^ 32 -> 0 <= b < 2 ^ 32 ->
    double_eq (double_of_unsigned a) (double_of_unsigned b) = (a =? b);
}.

(** ** Constants of taglist.h and defs.h

    The tag codes and the two list-growth constants are #defines of headers
    that are not among the sources, so they are taken as a parameter. What
    the C code needs of them is stated with them: the codes are pairwise
    different (they are case labels of one switch) and index the initial
    TagLists array. *)
Class TagCodes : Type := {
  ANNOTATOR_TAG : Z;
  BLACK_TAG : Z;
  BLACK_ELO_TAG : Z;
  DATE_TAG : Z;
  ECO_TAG : Z;
  EVENT_TAG : Z;
  FEN_TAG : Z;
  HASHCODE_TAG : Z;
  RESULT_TAG : Z;
  SETUP_TAG : Z;
  SITE_TAG : Z;
  TIME_CONTROL_TAG : Z;
  WHITE_TAG : Z;
  WHITE_ELO_TAG : Z;
  PSEUDO_PLAYER_TAG : Z;
  PSEUDO_ELO_TAG : Z;
  ORIGINAL_NUMBER_OF_TAGS : Z;
  INIT_LIST_SPACE : Z;
  MORE_LIST_SPACE : Z;
  predefined_tags : list Z :=
    [ANNOTATOR_TAG; BLACK_TAG; BLACK_ELO_TAG; DATE_TAG; ECO_TAG; EVENT_TAG;
     FEN_TAG; HASHCODE_TAG; RESULT_TAG; SETUP_TAG; SITE_TAG; TIME_CONTROL_TAG;
     WHITE_TAG; WHITE_ELO_TAG; PSEUDO_PLAYER_TAG; PSEUDO_ELO_TAG];
  predefined_tags_distinct : NoDup predefined_tags;
  predefined_tags_in_range :
    Forall (fun tag => 0 <= tag < ORIGINAL_NUMBER_OF_TAGS) predefined_tags;
  list_space_positive : 0 < INIT_LIST_SPACE /\ 0 < MORE_LIST_SPACE;
}.

(** ** Types of typedef.h and of lists.c *)

(** Modelled from the spec: typedef.h, which declares the enumeration
    TagOperator, is not among the sources. The eight operators are the ones
    the specification lists, under the names lists.c gives them. *)
Inductive TagOperator : Set :=
  | NONE
  | LESS_THAN
  | GREATER_THAN
  | EQUAL_TO
  | NOT_EQUAL_TO
  | LESS_THAN_OR_EQUAL_TO
  | GREATER_THAN_OR_EQUAL_TO
  | REGEX.

(** Modelled from the spec: the three gate modes of SetupStatus; a value of
    the C enumeration outside them is kept as [SETUP_UNRECOGNISED]. *)
Inductive SetupStatus : Set :=
  | SETUP_TAG_OK
  | NO_SETUP_TAG
  | SETUP_TAG_ONLY
  | SETUP_UNRECOGNISED (value : Z).

Definition is_NONE (op : TagOperator) : bool :=
  match op with NONE => true | _ => false end.
Definition is_REGEX (op : TagOperator) : bool :=
  match op with REGEX => true | _ => false end.

Record TagSelection : Set := {
  tag_string : string;
  operator : TagOperator;
}.

(** Elements 0 .. num_used_elements - 1 of the C array are the list
    [tag_strings]; the terminating entry is not represented. *)
Record StringArray : Set := {
  num_allocated_elements : Z;
  tag_strings : list TagSelection;
}.

Definition num_used_elements (array : StringArray) : Z :=
  Z.of_nat (List.length (tag_strings array)).

Definition empty_StringArray : StringArray :=
  {| num_allocated_elements := 0; tag_strings := [] |}.

(** The fields of GlobalState that lists.c reads or writes; [logfile] is the
    sequence of messages written to it so far. *)
Record StateInfo : Set := {
  use_soundex : bool;
  tag_match_anywhere : bool;
  check_tags : bool;
  setup_status : SetupStatus;
  logfile : list string;
}.

(** The static variables of lists.c, GlobalState, and the patterns handed to
    add_fen_pattern_match of moves.c. *)
Record Globals : Set := {
  TagLists : list StringArray;
  tag_list_length : Z;
  GlobalState : StateInfo;
  fen_pattern_matches : list string;
}.

(** ** Effects: global state, diagnostics and exit *)

Inductive Outcome (A : Type) : Type :=
  | Returns (value : A) (g : Globals)
  | Exits (status : Z) (g : Globals).
Arguments Returns {A} value g.
Arguments Exits {A} status g.

Definition Run (A : Type) : Type := Globals -> Outcome A.

Definition ret {A} (a : A) : Run A := fun g => Returns a g.

Definition bind {A B} (m : Run A) (k : A -> Run B) : Run B :=
  fun g =>
    match m g with
    | Returns a g' => k a g'
    | Exits status g' => Exits status g'
    end.

Notation "'let*' x ':=' m 'in' k" := (bind m (fun x => k))
  (at level 10, x binder, k at level 200).

Definition get_globals : Run Globals := fun g => Returns g g.
Definition put_globals (g : Globals) : Run unit := fun _ => Returns tt g.
Definition exit {A} (status : Z) : Run A := fun g => Exits status g.

Definition globals_after {A} (o : Outcome A) : Globals :=
  match o with
  | Returns _ g => g
  | Exits _ g => g
  end.

Definition set_logfile (l : list string) (st : StateInfo) : StateInfo :=
  {| use_soundex := use_soundex st;
     tag_match_anywhere := tag_match_anywhere st;
     check_tags := check_tags st;
     setup_status := setup_status st;
     logfile := l |}.

Definition set_check_tags (b : bool) (st : StateInfo) : StateInfo :=
  {| use_soundex := use_soundex st;
     tag_match_anywhere := tag_match_anywhere st;
     check_tags := b;
     setup_status := setup_status st;
     logfile := logfile st |}.

Definition with_GlobalState (f : StateInfo -> StateInfo) (g : Globals) : Globals :=
  {| TagLists := TagLists g;
     tag_list_length := tag_list_length g;
     GlobalState := f (GlobalState g);
     fen_pattern_matches := fen_pattern_matches g |}.

Definition logged (msgs : list string) (g : Globals) : Globals :=
  with_GlobalState (fun st => set_logfile (logfile st ++ msgs) st) g.

(** [fprintf (GlobalState.logfile, ...)], with the formatted text. *)
Definition fprintf_logfile (text : string) : Run unit :=
  fun g => Returns tt (logged [text] g).

Definition newline : string := String (ascii_of_nat 10) EmptyString.

(** The text of a %d or %u conversion. *)
Definition decimal (z : Z) : string :=
  NilZero.string_of_int (Z.to_int z).

(** The globals at program start, for given settings of the two matching
    options: nothing registered, nothing logged. *)
Definition startup (soundex_on anywhere : bool) : Globals :=
  {| TagLists := [];
     tag_list_length := 0;
     GlobalState :=
       {| use_soundex := soundex_on;
          tag_match_anywhere := anywhere;
          check_tags := false;
          setup_status := SETUP_TAG_OK;
          logfile := [] |};
     fen_pattern_matches := [] |}.

Section Lists.

Context {libc : Libc} {tags : TagCodes}.

(** ** The criterion registry *)

(** [TagLists[tag]]; the C code indexes the array only below
    tag_list_length. *)
Definition TagLists_at (g : Globals) (tag : Z) : StringArray :=
  if tag <? 0 then empty_StringArray
  else default empty_StringArray (TagLists g !! Z.to_nat tag).

Definition set_TagLists (lists : list StringArray) (len : Z) (g : Globals) : Globals :=
  {| TagLists := lists;
     tag_list_length := len;
     GlobalState := GlobalState g;
     fen_pattern_matches := fen_pattern_matches g |}.

Definition init_tag_lists : Run unit :=
  let* g := get_globals in
  put_globals
    (set_TagLists (replicate (Z.to_nat ORIGINAL_NUMBER_OF_TAGS) empty_StringArray)
       ORIGINAL_NUMBER_OF_TAGS g).

Definition extend_tag_list_length (new_length : Z) : Run unit :=
  let* g := get_globals in
  if new_length <? tag_list_length g then
    let* _ := fprintf_logfile
      ("Internal error: inappropriate call to extend_tag_list_length()." ++ newline) in
    let* _ := fprintf_logfile
      ("New length of " ++ decimal new_length ++
       " is not greater than existing length of " ++
       decimal (tag_list_length g) ++ newline) in
    exit 1
  else
    put_globals
      (set_TagLists
         (TagLists g ++
          replicate (Z.to_nat (new_length - tag_list_length g)) empty_StringArray)
         new_length g).

(** malloc_or_die and realloc_or_die end the process instead of returning
    NULL, so everything_ok stays TRUE and the index returned is never -1. *)
Definition add_to_taglist (str : string) (array : StringArray) : Z * StringArray :=
  let array :=
    if num_allocated_elements array =? num_used_elements array then
      if num_allocated_elements array =? 0 then
        {| num_allocated_elements := INIT_LIST_SPACE; tag_strings := [] |}
      else
        {| num_allocated_elements := num_allocated_elements array + MORE_LIST_SPACE;
           tag_strings := tag_strings array |}
    else array in
  let ix := num_used_elements array in
  (ix,
   {| num_allocated_elements := num_allocated_elements array;
      tag_strings := tag_strings array ++ [{| tag_string := str; operator := NONE |}] |}).

Definition soundex_tag (tag : Z) : bool :=
  (tag =? WHITE_TAG) || (tag =? BLACK_TAG) || (tag =? PSEUDO_PLAYER_TAG) ||
  (tag =? EVENT_TAG) || (tag =? SITE_TAG) || (tag =? ANNOTATOR_TAG).

(** add_fen_pattern_match belongs to moves.c; the model records the pattern
    it is given. *)
Definition add_fen_pattern_match (fen_pattern : string) : Run unit :=
  fun g =>
    Returns tt
      {| TagLists := TagLists g;
         tag_list_length := tag_list_length g;
         GlobalState := GlobalState g;
         fen_pattern_matches := fen_pattern_matches g ++ [fen_pattern] |}.

Definition set_operator (op : TagOperator) (sel : TagSelection) : TagSelection :=
  {| tag_string := tag_string sel; operator := op |}.

Definition add_tag_to_list (tag : Z) (tagstr : string) (op : TagOperator) : Run unit :=
  let* g := get_globals in
  let* _ := (if tag >=? tag_list_length g
             then extend_tag_list_length (tag + 1)
             else ret tt) in
  if tag =? FEN_TAG then add_fen_pattern_match tagstr
  else
    let* g := get_globals in
    if (tag >=? 0) && (tag <? tag_list_length g) then
      let string_to_store :=
        if use_soundex (GlobalState g) then
          if soundex_tag tag then soundex tagstr else tagstr
        else tagstr in
      let '(ix, array) := add_to_taglist string_to_store (TagLists_at g tag) in
      let array :=
        if ix >=? 0 then
          {| num_allocated_elements := num_allocated_elements array;
             tag_strings := alter (set_operator op) (Z.to_nat ix) (tag_strings array) |}
        else array in
      put_globals
        (with_GlobalState (set_check_tags true)
           (set_TagLists (<[Z.to_nat tag := array]> (TagLists g)) (tag_list_length g) g))
    else
      fprintf_logfile
        ("Illegal tag number " ++ decimal tag ++ " in add_tag_to_list." ++ newline).

Definition extract_tag_argument (argstr : string) : Run unit :=
  let unknown : Run unit :=
    let* _ := fprintf_logfile
      ("Unknown type of tag extraction argument: " ++ argstr ++ newline) in
    exit 1 in
  match argstr with
  | EmptyString => unknown
  | String c arg =>
      if Ascii.eqb c "a" then add_tag_to_list ANNOTATOR_TAG arg NONE
      else if Ascii.eqb c "b" then add_tag_to_list BLACK_TAG arg NONE
      else if Ascii.eqb c "d" then add_tag_to_list DATE_TAG arg NONE
      else if Ascii.eqb c "e" then add_tag_to_list ECO_TAG arg NONE
      else if Ascii.eqb c "f" then add_tag_to_list FEN_TAG arg NONE
      else if Ascii.eqb c "h" then add_tag_to_list HASHCODE_TAG arg NONE
      else if Ascii.eqb c "p" then add_tag_to_list PSEUDO_PLAYER_TAG arg NONE
      else if Ascii.eqb c "r" then add_tag_to_list RESULT_TAG arg NONE
      else if Ascii.eqb c "t" then add_tag_to_list TIME_CONTROL_TAG arg NONE
      else if Ascii.eqb c "w" then add_tag_to_list WHITE_TAG arg NONE
      else unknown
  end.

(** ** Scalar comparison *)

Definition relative_numeric_match (op : TagOperator) (lhs rhs : double) : Run bool :=
  match op with
  | LESS_THAN => ret (double_lt lhs rhs)
  | LESS_THAN_OR_EQUAL_TO => ret (double_le lhs rhs)
  | GREATER_THAN => ret (double_lt rhs lhs)
  | GREATER_THAN_OR_EQUAL_TO => ret (double_le rhs lhs)
  | EQUAL_TO => ret (double_eq lhs rhs)
  | NOT_EQUAL_TO => ret (negb (double_eq lhs rhs))
  | NONE =>
      let* _ := fprintf_logfile
        ("Internal error: NONE in call to relative_numeric_match." ++ newline) in
      ret false
  | REGEX =>
      let* _ := fprintf_logfile
        ("Internal error: missing case in call to relative_numeric_match." ++ newline) in
      ret false
  end.

(** ** Dates *)

Definition MINDATE : Z := 100.
Definition MAXDATE : Z := 3000.

(** [10000 * year + 100 * month + day] in unsigned arithmetic, and its
    conversion to double by the initialisation. *)
Definition encoded_date_value (year month day : Z) : Z :=
  to_unsigned (10000 * year + 100 * month + day).

Definition encoded_date (year month day : Z) : double :=
  double_of_unsigned (encoded_date_value year month day).

(** The operator and pattern a date criterion is evaluated with: a leading
    'b' or 'a' overrides the stored operator and is stepped over. *)
Definition date_selection (sel : TagSelection) : TagOperator * string :=
  match tag_string sel with
  | String c rest =>
      if Ascii.eqb c "b" then (LESS_THAN, rest)
      else if Ascii.eqb c "a" then (GREATER_THAN, rest)
      else (operator sel, tag_string sel)
  | EmptyString => (operator sel, tag_string sel)
  end.

(** The body of the for loop of check_date, for the criterion at
    [list_index]. *)
Definition check_date_step (date_string : string) (game_year : Z)
    (encoded_game_date : double) (list_index : nat) (sel : TagSelection)
    (wanted : bool) : Run bool :=
  let '(op, list_string) := date_selection sel in
  if negb (is_NONE op) then
    match sscanf_u list_string with
    | Some list_year =>
        if (game_year >? MINDATE) && (game_year <? MAXDATE) then
          let '(list_month, list_day) := sscanf_month_day list_string 1 1 in
          let encoded_list_date := encoded_date list_year list_month list_day in
          let* matches := relative_numeric_match op encoded_game_date encoded_list_date in
          if (list_index =? 0)%nat then ret matches else ret (wanted && matches)
        else ret false
    | None =>
        let* _ := fprintf_logfile
          ("Failed to extract year from " ++ list_string ++ "." ++ newline) in
        ret false
    end
  else
    if (list_index =? 0)%nat || negb wanted
    then ret (starts_with date_string list_string)
    else ret wanted.

Fixpoint check_date_loop (date_string : string) (game_year : Z)
    (encoded_game_date : double) (list_index : nat) (items : list TagSelection)
    (wanted : bool) : Run bool :=
  match items with
  | [] => ret wanted
  | sel :: items' =>
      let* wanted :=
        check_date_step date_string game_year encoded_game_date list_index sel wanted in
      check_date_loop date_string game_year encoded_game_date (S list_index) items' wanted
  end.

Definition check_date (date_string : string) (array : StringArray) : Run bool :=
  match sscanf_u date_string with
  | Some game_year =>
      let '(game_month, game_day) := sscanf_month_day date_string 1 1 in
      let encoded_game_date := encoded_date game_year game_month game_day in
      check_date_loop date_string game_year encoded_game_date 0 (tag_strings array) false
  | None => ret false
  end.

(** ** Time controls and Elo values *)

(** The body of the for loop of check_time_period; the loop condition has
    established that [wanted] is FALSE. *)
Definition check_time_period_step (tag_str : string) (period : Z)
    (sel : TagSelection) : Run bool :=
  let list_string := tag_string sel in
  if negb (is_NONE (operator sel)) then
    match sscanf_u list_string with
    | Some list_period =>
        relative_numeric_match (operator sel)
          (double_of_unsigned period) (double_of_unsigned list_period)
    | None => ret false
    end
  else
    if starts_with tag_str list_string then ret true else ret false.

Fixpoint check_time_period_loop (tag_str : string) (period : Z)
    (items : list TagSelection) (wanted : bool) : Run bool :=
  match items with
  | [] => ret wanted
  | sel :: items' =>
      if wanted then ret wanted
      else
        let* wanted := check_time_period_step tag_str period sel in
        check_time_period_loop tag_str period items' wanted
  end.

Definition check_time_period (tag_str : string) (period : Z)
    (array : StringArray) : Run bool :=
  check_time_period_loop tag_str period (tag_strings array) false.

Fixpoint skip_digits (digit : string) : string :=
  match digit with
  | String c digit' => if isdigit c then skip_digits digit' else digit
  | EmptyString => EmptyString
  end.

Definition check_time_control (tc_string : string) (array : StringArray) : Run bool :=
  if Ascii.eqb (head_char tc_string) Ascii.zero ||
     Ascii.eqb (head_char tc_string) "?" ||
     Ascii.eqb (head_char tc_string) "-"
  then ret false
  else
    (* copy_string, then the copy is cut at the first ':' *)
    let control := cut_at ":" tc_string in
    if bool_decide (is_Some (strchr control "+")) then
      match sscanf_u control with
      | Some period => check_time_period control period array
      | None => ret false
      end
    else if Ascii.eqb (head_char control) "*" then
      match sscanf_u (advance control) with
      | Some period => check_time_period control period array
      | None => ret false
      end
    else
      match strchr control "/" with
      | Some slash =>
          match sscanf_u (advance slash) with
          | Some period => check_time_period control period array
          | None => ret false
          end
      | None =>
          if isdigit (head_char control) then
            if is_empty (skip_digits control) then
              match sscanf_u control with
              | Some period => check_time_period control period array
              | None => ret false
              end
            else ret false
          else ret false
      end.

(** The body of the for loop of check_elo; the loop condition has
    established that [wanted] is FALSE. *)
Definition check_elo_step (elo_string : string) (game_elo : Z)
    (sel : TagSelection) : Run bool :=
  let list_string := tag_string sel in
  if negb (is_NONE (operator sel)) then
    match sscanf_u list_string with
    | Some list_elo =>
        relative_numeric_match (operator sel)
          (double_of_unsigned game_elo) (double_of_unsigned list_elo)
    | None => ret false
    end
  else
    if starts_with elo_string list_string then ret true else ret false.

Fixpoint check_elo_loop (elo_string : string) (game_elo : Z)
    (items : list TagSelection) (wanted : bool) : Run bool :=
  match items with
  | [] => ret wanted
  | sel :: items' =>
      if wanted then ret wanted
      else
        let* wanted := check_elo_step elo_string game_elo sel in
        check_elo_loop elo_string game_elo items' wanted
  end.

Definition check_elo (elo_string : string) (array : StringArray) : Run bool :=
  match sscanf_u elo_string with
  | Some game_elo => check_elo_loop elo_string game_elo (tag_strings array) false
  | None => ret false
  end.

(** ** The generic matcher *)

(** The text test made for every entry of the first loop of check_list. *)
Definition plain_test (anywhere : bool) (search_str list_string : string) : bool :=
  if anywhere then strstr search_str list_string
  else starts_with search_str list_string.

(** The variables the first loop of check_list carries. *)
Record PlainPass : Set := {
  wanted_after_plain : bool;
  possible_range_check : bool;
  possible_regex_check : bool;
}.

Fixpoint plain_pass (anywhere tag_string_is_numeric : bool) (search_str : string)
    (items : list TagSelection) (acc : PlainPass) : PlainPass :=
  match items with
  | [] => acc
  | selection :: items' =>
      if wanted_after_plain acc then acc
      else
        let wanted := plain_test anywhere search_str (tag_string selection) in
        let deferred := negb wanted && negb (is_NONE (operator selection)) in
        plain_pass anywhere tag_string_is_numeric search_str items'
          {| wanted_after_plain := wanted;
             possible_range_check :=
               if deferred && tag_string_is_numeric then true
               else possible_range_check acc;
             possible_regex_check :=
               if deferred && is_REGEX (operator selection) then true
               else possible_regex_check acc |}
  end.

(** The body of the second loop of check_list: the switch over the
    operator, with the running value [wanted] (TRUE on entry). *)
Definition range_step (search_str : string) (selection : TagSelection)
    (wanted : bool) : Run bool :=
  match operator selection with
  | EQUAL_TO | NOT_EQUAL_TO | LESS_THAN | GREATER_THAN
  | LESS_THAN_OR_EQUAL_TO | GREATER_THAN_OR_EQUAL_TO =>
      match sscanf_lf search_str, sscanf_lf (tag_string selection) with
      | Some tag_value, Some list_value =>
          relative_numeric_match (operator selection) tag_value list_value
      | _, _ => ret wanted
      end
  | NONE => ret wanted
  | REGEX =>
      let* _ := fprintf_logfile
        ("Internal error: missing case in call to check_list." ++ newline) in
      ret wanted
  end.

Fixpoint range_pass (search_str : string) (items : list TagSelection)
    (wanted : bool) : Run bool :=
  match items with
  | [] => ret wanted
  | selection :: items' =>
      if wanted then
        let* wanted := range_step search_str selection wanted in
        range_pass search_str items' wanted
      else ret wanted
  end.

Fixpoint regex_pass (search_str : string) (items : list TagSelection)
    (wanted : bool) : bool :=
  match items with
  | [] => wanted
  | selection :: items' =>
      if wanted then wanted
      else
        regex_pass search_str items'
          (if is_REGEX (operator selection) then
             match regcomp (tag_string selection) with
             | Some regex => if regexec regex search_str then true else wanted
             | None => wanted
             end
           else wanted)
  end.

Definition check_list (tag : Z) (tag_str : string) (array : StringArray) : Run bool :=
  let* g := get_globals in
  let search_str :=
    if use_soundex (GlobalState g) && soundex_tag tag
    then soundex tag_str else tag_str in
  let numeric := tag_string_is_numeric search_str in
  let plain :=
    plain_pass (tag_match_anywhere (GlobalState g)) numeric search_str
      (tag_strings array)
      {| wanted_after_plain := false;
         possible_range_check := false;
         possible_regex_check := false |} in
  let wanted := wanted_after_plain plain in
  if negb wanted then
    let* wanted :=
      (if possible_range_check plain
       then range_pass search_str (tag_strings array) true
       else ret wanted) in
    if negb wanted && possible_regex_check plain
    then ret (regex_pass search_str (tag_strings array) wanted)
    else ret wanted
  else ret wanted.

(** ** The record selector *)

(** [Details[tag]]: NULL is [None]. *)
Definition Details_at (Details : list (option string)) (tag : Z) : option string :=
  if tag <? 0 then None else mjoin (Details !! Z.to_nat tag).

(** The body of the final for loop of check_tag_details_not_ECO. The lists
    are read from [g]: no matcher writes TagLists. *)
Definition check_tag (g : Globals) (Details : list (option string)) (tag : Z)
    (wanted : bool) : Run bool :=
  if tag =? PSEUDO_PLAYER_TAG then ret wanted
  else if tag =? PSEUDO_ELO_TAG then ret wanted
  else if tag =? ECO_TAG then ret wanted
  else if negb (num_used_elements (TagLists_at g tag) =? 0) then
    match Details_at Details tag with
    | Some value =>
        if tag =? DATE_TAG then check_date value (TagLists_at g DATE_TAG)
        else if (tag =? WHITE_ELO_TAG) || (tag =? BLACK_ELO_TAG)
        then check_elo value (TagLists_at g tag)
        else if tag =? TIME_CONTROL_TAG
        then check_time_control value (TagLists_at g TIME_CONTROL_TAG)
        else check_list tag value (TagLists_at g tag)
    | None => ret false
    end
  else ret wanted.

(** [for (tag = first; (tag < tag_list_length) && wanted; tag++)], with
    [remaining] the number of tags from [first] to tag_list_length. *)
Fixpoint check_tags_from (g : Globals) (Details : list (option string))
    (remaining : nat) (first : Z) (wanted : bool) : Run bool :=
  match remaining with
  | O => ret wanted
  | S remaining' =>
      if wanted then
        let* wanted := check_tag g Details first wanted in
        check_tags_from g Details remaining' (first + 1) wanted
      else ret wanted
  end.

Definition check_tag_details_not_ECO (Details : list (option string))
    (num_details : Z) : Run bool :=
  let* g := get_globals in
  if check_tags (GlobalState g) then
    let* _ :=
      (if num_details <? tag_list_length g then
         let* _ := fprintf_logfile
           "Internal error: mismatch in tag set lengths in " in
         let* _ := fprintf_logfile
           ("CheckTagDetailsNotECO: " ++ decimal num_details ++ " vs " ++
            decimal (tag_list_length g) ++ newline) in
         exit 1
       else ret tt) in
    let wanted := true in
    let* wanted :=
      (if negb (num_used_elements (TagLists_at g PSEUDO_PLAYER_TAG) =? 0) then
         match Details_at Details WHITE_TAG with
         | Some white =>
             let* wanted :=
               check_list WHITE_TAG white (TagLists_at g PSEUDO_PLAYER_TAG) in
             match Details_at Details BLACK_TAG with
             | Some black =>
                 if negb wanted
                 then check_list BLACK_TAG black (TagLists_at g PSEUDO_PLAYER_TAG)
                 else ret wanted
             | None => ret wanted
             end
         | None =>
             match Details_at Details BLACK_TAG with
             | Some black =>
                 check_list BLACK_TAG black (TagLists_at g PSEUDO_PLAYER_TAG)
             | None => ret false
             end
         end
       else ret wanted) in
    let* wanted :=
      (if negb (num_used_elements (TagLists_at g PSEUDO_ELO_TAG) =? 0) then
         match Details_at Details WHITE_ELO_TAG with
         | Some white_elo =>
             let* wanted := check_elo white_elo (TagLists_at g PSEUDO_ELO_TAG) in
             match Details_at Details BLACK_ELO_TAG with
             | Some black_elo =>
                 if negb wanted
                 then check_elo black_elo (TagLists_at g PSEUDO_ELO_TAG)
                 else ret wanted
             | None => ret wanted
             end
         | None =>
             match Details_at Details BLACK_ELO_TAG with
             | Some black_elo => check_elo black_elo (TagLists_at g PSEUDO_ELO_TAG)
             | None => ret false
             end
         end
       else ret wanted) in
    check_tags_from g Details (Z.to_nat (tag_list_length g)) 0 wanted
  else ret true.

Definition check_ECO_tag (Details : list (option string)) : Run bool :=
  let* g := get_globals in
  if check_tags (GlobalState g) then
    if negb (num_used_elements (TagLists_at g ECO_TAG) =? 0) then
      match Details_at Details ECO_TAG with
      | Some eco => check_list ECO_TAG eco (TagLists_at g ECO_TAG)
      | None => ret false
      end
    else ret true
  else ret true.

Definition check_setup_tag (Details : list (option string)) : Run bool :=
  let* g := get_globals in
  match setup_status (GlobalState g) with
  | SETUP_TAG_OK => ret true
  | NO_SETUP_TAG => ret (bool_decide (Details_at Details SETUP_TAG = None))
  | SETUP_TAG_ONLY => ret (negb (bool_decide (Details_at Details SETUP_TAG = None)))
  | SETUP_UNRECOGNISED value =>
      let* _ := fprintf_logfile
        ("Internal error: setup status " ++ decimal value ++ " not recognised.") in
      exit 1
  end.

(** ** Building a registry and a record

    The configuration phase as callers run it: init_tag_lists, then one
    add_tag_to_list per criterion, in order. *)
Fixpoint add_tags_to_lists (criteria : list (Z * string * TagOperator)) : Run unit :=
  match criteria with
  | [] => ret tt
  | (tag, tagstr, op) :: criteria' =>
      let* _ := add_tag_to_list tag tagstr op in
      add_tags_to_lists criteria'
  end.

Definition configured (soundex_on anywhere : bool)
    (criteria : list (Z * string * TagOperator)) : Globals :=
  globals_after
    ((let* _ := init_tag_lists in add_tags_to_lists criteria)
       (startup soundex_on anywhere)).

(** A Details array of [num_details] entries, NULL except for the given
    fields. *)
Definition record_of (num_details : nat) (fields : list (Z * string))
    : list (option string) :=
  foldr (fun field Details => <[Z.to_nat field.1 := Some field.2]> Details)
    (replicate num_details None) fields.

End Lists.

(** ** The specification's wording, for comparison with the code *)

Fixpoint all_chars (p : ascii -> bool) (s : string) : bool :=
  match s with
  | EmptyString => true
  | String c s' => p c && all_chars p s'
  end.

Definition digit_or_dot (c : ascii) : bool := isdigit c || Ascii.eqb c ".".

(** A numeric-literal shape: an optional sign, then digits and dots only,
    to the end of the string. *)
Definition numeric_shaped (s : string) : Prop :=
  exists sign body,
    s = sign ++ body /\
    (sign = "" \/ sign = "+" \/ sign = "-") /\
    all_chars digit_or_dot body = true.

(** What a comparison under an operator means on integers; NONE and REGEX
    compare nothing. *)
Definition relation_holds (op : TagOperator) (lhs rhs : Z) : bool :=
  match op with
  | LESS_THAN => lhs <? rhs
  | LESS_THAN_OR_EQUAL_TO => lhs <=? rhs
  | GREATER_THAN => lhs >? rhs
  | GREATER_THAN_OR_EQUAL_TO => lhs >=? rhs
  | EQUAL_TO => lhs =? rhs
  | NOT_EQUAL_TO => negb (lhs =? rhs)
  | NONE | REGEX => false
  end.

(** Success of one criterion for an Elo value or a time-control period: a
    criterion without operator succeeds by prefix equality with the
    candidate text, a relational one by comparing the candidate's number
    with the number the pattern starts with. *)
Definition criterion_succeeds (candidate : string) (number : Z)
    (sel : TagSelection) : bool :=
  match operator sel with
  | NONE => starts_with candidate (tag_string sel)
  | op =>
      match sscanf_u (tag_string sel) with
      | Some pattern_number => relation_holds op number pattern_number
      | None => false
      end
  end.

(** What relative_numeric_match writes to the log. *)
Definition comparison_diagnostic (op : TagOperator) : list string :=
  match op with
  | NONE => ["Internal error: NONE in call to relative_numeric_match." ++ newline]
  | REGEX => ["Internal error: missing case in call to relative_numeric_match." ++ newline]
  | _ => []
  end.

(** The magnitude check_date compares: the leading year, then month and day
    where present (1 otherwise), combined as the code combines them. *)
Definition date_magnitude (date : string) : option Z :=
  match sscanf_u date with
  | Some year =>
      let '(month, day) := sscanf_month_day date 1 1 in
      Some (encoded_date_value year month day)
  | None => None
  end.

(** A relational date criterion holds for a game date when the game's year
    lies strictly between MINDATE and MAXDATE, the pattern left after
    date_selection has a year, and the two magnitudes are related by the
    operator date_selection gives. *)
Definition date_relation_holds (date_string : string) (sel : TagSelection) : bool :=
  let '(op, pattern) := date_selection sel in
  match sscanf_u date_string, date_magnitude date_string, date_magnitude pattern with
  | Some year, Some game_date, Some pattern_date =>
      (MINDATE <? year) && (year <? MAXDATE) &&
      relation_holds op game_date pattern_date
  | _, _, _ => false
  end.

(** The four shapes of a time control and the text its period is read
    from: period+increment, *period, moves/period, and a period alone. *)
Inductive TimeControlShape : Set :=
  | PERIOD_PLUS_INCREMENT
  | SANDCLOCK
  | MOVES_PER_PERIOD
  | SUDDEN_DEATH.

Fixpoint contains (c : ascii) (s : string) : bool :=
  match s with
  | EmptyString => false
  | String d s' => Ascii.eqb d c || contains c s'
  end.

(** The text after the first [c] of [s]. *)
Fixpoint after_first (c : ascii) (s : string) : string :=
  match s with
  | EmptyString => EmptyString
  | String d s' => if Ascii.eqb d c then s' else after_first c s'
  end.

Definition time_control_shape (control : string) : option TimeControlShape :=
  if contains "+" control then Some PERIOD_PLUS_INCREMENT
  else if Ascii.eqb (head_char control) "*" then Some SANDCLOCK
  else if contains "/" control then Some MOVES_PER_PERIOD
  else if negb (is_empty control) && all_chars isdigit control then Some SUDDEN_DEATH
  else None.

Definition period_text (shape : TimeControlShape) (control : string) : string :=
  match shape with
  | PERIOD_PLUS_INCREMENT => control
  | SANDCLOCK => advance control
  | MOVES_PER_PERIOD => after_first "/" control
  | SUDDEN_DEATH => control
  end.

Definition time_control_period (control : string) : option Z :=
  match time_control_shape control with
  | Some shape => sscanf_u (period_text shape control)
  | None => None
  end.

(** A time control that check_time_control does not look at any further:
    empty, or starting with a question mark or a dash. *)
Definition nothing_to_compare (tc_string : string) : bool :=
  Ascii.eqb (head_char tc_string) Ascii.zero ||
  Ascii.eqb (head_char tc_string) "?" || Ascii.eqb (head_char tc_string) "-".

Section SearchString.

Context {tags : TagCodes}.

(** The string check_list compares with the patterns: the soundex code of
    the tag value where soundex matching applies, the tag value itself
    otherwise. *)
Definition search_string (g : Globals) (tag : Z) (tag_str : string) : string :=
  if use_soundex (GlobalState g) && soundex_tag tag then soundex tag_str else tag_str.

End SearchString.

(** What the second loop of check_list writes for an entry with the REGEX
    operator. *)
Definition missing_case_in_check_list : string :=
  "Internal error: missing case in call to check_list." ++ newline.

(** ** The shape of the registry, and what add_tag_to_list stores *)

(** The bound the declaration of StringArray asks for: no more elements in
    use than allocated. *)
Definition StringArray_ok (array : StringArray) : Prop :=
  num_used_elements array <= num_allocated_elements array.

(** TagLists has tag_list_length entries, each within its allocation. *)
Definition registry_ok (g : Globals) : Prop :=
  Z.of_nat (List.length (TagLists g)) = tag_list_length g /\
  Forall StringArray_ok (TagLists g).

Section StoredString.

Context {tags : TagCodes}.

(** The text add_tag_to_list stores for a pattern: its soundex code where
    soundex matching applies, the pattern itself otherwise. *)
Definition string_to_store (g : Globals) (tag : Z) (tagstr : string) : string :=
  if use_soundex (GlobalState g) then
    if soundex_tag tag then soundex tagstr else tagstr
  else tagstr.

(** The letters extract_tag_argument knows. *)
Definition known_argument_letter (c : ascii) : bool :=
  existsb (Ascii.eqb c) ["a"; "b"; "d"; "e"; "f"; "h"; "p"; "r"; "t"; "w"]%char.

End StoredString.

Section RoomFor.

Context {tags : TagCodes}.

(** The globals after the first statement of add_tag_to_list: TagLists is
    extended to hold [tag] when it does not yet. *)
Definition room_for (tag : Z) (g : Globals) : Globals :=
  if tag >=? tag_list_length g then
    set_TagLists
      (TagLists g ++
       replicate (Z.to_nat (tag + 1 - tag_list_length g)) empty_StringArray)
      (tag + 1) g
  else g.

End RoomFor.

(** ** Shapes of soundex codes *)

(** A symbol the encoder can emit: a digit from 1 to 7. *)
Definition soundex_symbol (c : ascii) : bool := (49 <=? code c) && (code c <=? 55).

Fixpoint no_adjacent_repeats (s : string) : bool :=
  match s with
  | EmptyString => true
  | String c s' =>
      match s' with
      | EmptyString => true
      | String d _ => negb (Ascii.eqb c d)
      end && no_adjacent_repeats s'
  end.

(** A character the scan of soundex reacts to: a letter whose entry in
    [mapping] is not 0. *)
Definition sounded (c : ascii) : bool :=
  isalpha c && negb (Ascii.eqb (translate (toupper c)) "0").

Fixpoint filter_chars (p : ascii -> bool) (s : string) : string :=
  match s with
  | EmptyString => EmptyString
  | String c s' => if p c then String c (filter_chars p s') else filter_chars p s'
  end.

(** ** Verdicts of the three passes of check_list *)

Definition relational (op : TagOperator) : bool :=
  negb (is_NONE op) && negb (is_REGEX op).

(** The assignment [GlobalState.tag_match_anywhere = anywhere]. *)
Definition set_tag_match_anywhere (anywhere : bool) (g : Globals) : Globals :=
  with_GlobalState
    (fun st =>
       {| use_soundex := use_soundex st;
          tag_match_anywhere := anywhere;
          check_tags := check_tags st;
          setup_status := setup_status st;
          logfile := logfile st |}) g.

Section PassVerdicts.

Context {libc : Libc}.

(** The comparison of two doubles under a relational operator. *)
Definition double_relation (op : TagOperator) (lhs rhs : double) : bool :=
  match op with
  | LESS_THAN => double_lt lhs rhs
  | LESS_THAN_OR_EQUAL_TO => double_le lhs rhs
  | GREATER_THAN => double_lt rhs lhs
  | GREATER_THAN_OR_EQUAL_TO => double_le rhs lhs
  | EQUAL_TO => double_eq lhs rhs
  | NOT_EQUAL_TO => negb (double_eq lhs rhs)
  | NONE | REGEX => false
  end.

(** A relational criterion as the second loop of check_list counts it: it
    holds when the comparison holds, and also when one of the two strings
    does not convert. *)
Definition range_criterion_holds (search_str : string) (sel : TagSelection) : bool :=
  match sscanf_lf search_str, sscanf_lf (tag_string sel) with
  | Some tag_value, Some list_value =>
      double_relation (operator sel) tag_value list_value
  | _, _ => true
  end.

(** A criterion that matches as a regular expression: it has the REGEX
    operator, its pattern compiles, and the search finds it. *)
Definition regex_matches (search_str : string) (sel : TagSelection) : bool :=
  is_REGEX (operator sel) &&
  match regcomp (tag_string sel) with
  | Some regex => regexec regex search_str
  | None => false
  end.

End PassVerdicts.

Section SelectorVerdicts.

Context {tags : TagCodes}.

(** The text test of check_list for the value a record has for [tag],
    against the patterns of [items]; a missing value matches nothing. *)
Definition value_matches (g : Globals) (Details : list (option string)) (tag : Z)
    (items : list TagSelection) : bool :=
  match Details_at Details tag with
  | Some value =>
      existsb (fun sel =>
                 plain_test (tag_match_anywhere (GlobalState g))
                   (search_string g tag value) (tag_string sel)) items
  | None => false
  end.

(** A tag the final loop of check_tag_details_not_ECO leaves to check_list:
    not one of the two pseudo tags, not the ECO tag, and none of the tags
    with a matcher of their own. *)
Definition generic_tag (tag : Z) : Prop :=
  tag <> PSEUDO_PLAYER_TAG /\ tag <> PSEUDO_ELO_TAG /\ tag <> ECO_TAG /\
  tag <> DATE_TAG /\ tag <> WHITE_ELO_TAG /\ tag <> BLACK_ELO_TAG /\
  tag <> TIME_CONTROL_TAG.

End SelectorVerdicts.

(** ** An instance of the platform and of the tag codes

    The theorems below hold for every [Libc] and every [TagCodes]. To run
    the model, and to show that what the two classes ask for can be met,
    here is one instance of each: exact rationals stand for binary64
    numbers, plain decimal literals for what %lf accepts, literal text for
    regular expressions; the tag codes are numbered in alphabetical order. *)

Definition decimal_literal (s : string) : option Q :=
  let s1 := skip_spaces s in
  let negative := Ascii.eqb (head_char s1) "-" in
  let s2 := skip_sign s1 in
  let '(int_part, r) := scan_digits s2 0 in
  let '(frac_part, r') :=
    if Ascii.eqb (head_char r) "." then scan_digits (advance r) 0 else (0, r) in
  let frac_digits :=
    if Ascii.eqb (head_char r) "."
    then (String.length (advance r) - String.length r')%nat else O in
  if isdigit (head_char s2) || (0 <? frac_digits)%nat then
    let magnitude :=
      Qplus (inject_Z int_part)
            (Qmake frac_part (Z.to_pos (10 ^ Z.of_nat frac_digits))) in
    Some (if negative then Qopp magnitude else magnitude)
  else None.

Definition exact_libc : Libc.
Proof.
  refine
    {| double := Q;
       double_lt := fun x y => negb (Qle_bool y x);
       double_le := Qle_bool;
       double_eq := Qeq_bool;
       double_of_unsigned := inject_Z;
       sscanf_lf := decimal_literal;
       regex_t := string;
       regcomp := fun pattern => Some pattern;
       regexec := fun regex subject => strstr subject regex |}.
  - intros a b _ _. unfold Qle_bool; simpl. rewrite !Z.mul_1_r.
    apply eq_sym, Z.ltb_antisym.
  - intros a b _ _. unfold Qle_bool; simpl. by rewrite !Z.mul_1_r.
  - intros a b _ _. unfold Qeq_bool; simpl. by rewrite !Z.mul_1_r.
Defined.

Definition alphabetical_tags : TagCodes.
Proof.
  refine
    {| ANNOTATOR_TAG := 0; BLACK_TAG := 1; BLACK_ELO_TAG := 2; DATE_TAG := 3;
       ECO_TAG := 4; EVENT_TAG := 5; FEN_TAG := 6; HASHCODE_TAG := 7;
       RESULT_TAG := 8; SETUP_TAG := 9; SITE_TAG := 10; TIME_CONTROL_TAG := 11;
       WHITE_TAG := 12; WHITE_ELO_TAG := 13; PSEUDO_PLAYER_TAG := 14;
       PSEUDO_ELO_TAG := 15; ORIGINAL_NUMBER_OF_TAGS := 16;
       INIT_LIST_SPACE := 10; MORE_LIST_SPACE := 5 |}.
  - apply (bool_decide_unpack _). by vm_compute.
  - apply (bool_decide_unpack _). by vm_compute.
  - split; reflexivity.
Defined.

(** * Properties *)

(** ** Characters *)

Ltac each_char c := destruct c as [[] [] [] [] [] [] [] []].

Lemma toupper_idem c : toupper (toupper c) = toupper c.
Proof. each_char c; reflexivity. Qed.

Lemma isalpha_toupper c : isalpha (toupper c) = isalpha c.
Proof. each_char c; reflexivity. Qed.

Lemma islower_toupper c : islower (toupper c) = false.
Proof. each_char c; reflexivity. Qed.

Lemma toupper_tolower c : toupper (tolower c) = toupper c.
Proof. each_char c; reflexivity. Qed.

Lemma translate_not_alpha c : isalpha (translate c) = false.
Proof. each_char c; reflexivity. Qed.

Lemma alpha_differs c d : isalpha c = true -> isalpha d = false -> Ascii.eqb c d = false.
Proof.
  intros Hc Hd. destruct (Ascii.eqb_spec c d) as [->|]; [congruence | done].
Qed.

Lemma upcase_idem s : upcase (upcase s) = upcase s.
Proof.
  unfold upcase. induction s as [|c s IH]; cbn [map_chars]; [done|].
  by rewrite toupper_idem, IH.
Qed.

Lemma upcase_downcase s : upcase (downcase s) = upcase s.
Proof.
  unfold upcase, downcase. induction s as [|c s IH]; cbn [map_chars]; [done|].
  by rewrite toupper_tolower, IH.
Qed.

(** ** The soundex encoder *)

Lemma soundex_scan_upcase s : forall sindex lastc,
  isalpha lastc = false ->
  soundex_scan (upcase s) sindex lastc = soundex_scan s sindex lastc.
Proof.
  unfold upcase.
  induction s as [|c s IH]; intros sindex lastc Hlast; cbn [map_chars soundex_scan]; [done|].
  destruct (sindex <? MAXSOUNDEX)%nat; [|done].
  rewrite isalpha_toupper, islower_toupper.
  destruct (isalpha c) eqn:Hc; cbn [andb].
  - rewrite (alpha_differs c lastc), (alpha_differs (toupper c) lastc)
      by (by rewrite ?isalpha_toupper).
    cbn [negb].
    replace (if islower c then toupper c else c) with (toupper c)
      by (unfold toupper; by destruct (islower c)).
    destruct (_ && _); [|by apply IH].
    f_equal. apply IH, translate_not_alpha.
  - by apply IH.
Qed.

Lemma soundex_upcase s : soundex (upcase s) = soundex s.
Proof.
  destruct s as [|c s]; [done|].
  unfold soundex, upcase. cbn [map_chars]. fold (upcase s).
  rewrite islower_toupper.
  replace (if islower c then toupper c else c) with (toupper c)
    by (unfold toupper; by destruct (islower c)).
  destruct (_ || _).
  - f_equal. by apply soundex_scan_upcase.
  - by apply (soundex_scan_upcase (String c s)).
Qed.

Lemma soundex_scan_length s : forall sindex lastc,
  (sindex + String.length (soundex_scan s sindex lastc) <= Nat.max sindex MAXSOUNDEX)%nat.
Proof.
  induction s as [|c s IH]; intros sindex lastc; cbn [soundex_scan String.length]; [lia|].
  destruct (Nat.ltb_spec sindex MAXSOUNDEX); cbn [String.length]; [|lia].
  destruct (_ && _); [|apply IH].
  destruct (_ && _); [|apply IH].
  cbn [String.length]. specialize (IH (S sindex) (translate (if islower c then toupper c else c))).
  lia.
Qed.

Lemma soundex_length s : (String.length (soundex s) <= MAXSOUNDEX)%nat.
Proof.
  destruct s as [|c s]; [cbn; lia|].
  unfold soundex. destruct (_ || _).
  - pose proof (soundex_scan_length s 1 " "). cbn [String.length].
    unfold MAXSOUNDEX in *. lia.
  - pose proof (soundex_scan_length (String c s) 0 " ").
    unfold MAXSOUNDEX in *. lia.
Qed.

(** C8. The encoder is a function of its argument alone and does not look at
    the case of letters: two names that agree up to case have the same code
    (in particular a name, its upper-case and its lower-case form). A first
    letter J, j, Y or y is encoded as the digit 7 and the scan resumes after
    it. The code has at most 50 symbols. Nimzovich and Nimzowitsch have the
    same code; the codes of Janosevic and Yanosevic both start with 7. *)
Theorem soundex_case_insensitive_J_Y_bounded (s t : string) :
  (upcase s = upcase t -> soundex s = soundex t) /\
  soundex (upcase s) = soundex s /\
  soundex (downcase s) = soundex s /\
  (forall c, In c ["J"; "j"; "Y"; "y"]%char ->
     soundex (String c s) = String "7" (soundex_scan s 1 " ")) /\
  (String.length (soundex s) <= 50)%nat /\
  soundex "Nimzovich" = soundex "Nimzowitsch" /\
  head_char (soundex "Janosevic") = "7"%char /\
  head_char (soundex "Yanosevic") = "7"%char.
Proof.
  repeat split.
  - intros H. by rewrite <- (soundex_upcase s), H, soundex_upcase.
  - apply soundex_upcase.
  - by rewrite <- (soundex_upcase (downcase s)), upcase_downcase, soundex_upcase.
  - intros c Hc. cbn in Hc. by destruct Hc as [<-|[<-|[<-|[<-|[]]]]].
  - apply soundex_length.
Qed.

(** ** The numeric-literal scan *)

Lemma skip_digits_and_dots_all t :
  skip_digits_and_dots t = "" <-> all_chars digit_or_dot t = true.
Proof.
  induction t as [|c t IH]; cbn [skip_digits_and_dots all_chars]; [done|].
  fold (digit_or_dot c). destruct (digit_or_dot c); cbn [andb]; [done|].
  split; discriminate.
Qed.

Lemma tag_string_is_numeric_skip s :
  tag_string_is_numeric s = true <-> skip_digits_and_dots (skip_sign s) = "".
Proof.
  unfold tag_string_is_numeric.
  destruct (skip_digits_and_dots (skip_sign s)); split; congruence.
Qed.

Lemma tag_string_is_numeric_shape s :
  tag_string_is_numeric s = true <-> numeric_shaped s.
Proof.
  rewrite tag_string_is_numeric_skip, skip_digits_and_dots_all.
  split.
  - intros H. destruct s as [|c s]; [by exists "", ""; auto|].
    cbn [skip_sign] in H.
    destruct (Ascii.eqb_spec c "+") as [->|Hplus];
      [by exists "+", s; auto|].
    destruct (Ascii.eqb_spec c "-") as [->|Hminus];
      [by exists "-", s; auto|].
    by exists "", (String c s); auto.
  - intros (sign & body & -> & Hsign & Hbody).
    destruct Hsign as [->|[->| ->]]; [|done..].
    change ("" ++ body) with body. destruct body as [|c body]; [done|].
    cbn [skip_sign].
    destruct (Ascii.eqb_spec c "+") as [->|_]; [done|].
    destruct (Ascii.eqb_spec c "-") as [->|_]; [done|].
    exact Hbody.
Qed.

Section Classifier.

Context {libc : Libc} {tags : TagCodes}.

(** C10. The scan that classifies the search string accepts exactly an
    optional leading + or - followed by digits and dots up to the end of the
    string. So 1.2.3, the empty string and a bare sign are all classified
    numeric. With an empty candidate and a relational criterion the first
    loop ends without a match and with the range check requested, in either
    matching mode, and check_list then returns what the relational loop
    computes; when %lf converts nothing from the empty string that is TRUE. *)
Theorem numeric_classifier_exact (s : string) :
  (tag_string_is_numeric s = true <-> numeric_shaped s) /\
  tag_string_is_numeric "1.2.3" = true /\
  tag_string_is_numeric "" = true /\
  tag_string_is_numeric "+" = true /\
  tag_string_is_numeric "-" = true /\
  (forall anywhere,
     plain_pass anywhere (tag_string_is_numeric "") ""
       [{| tag_string := "2500"; operator := LESS_THAN |}]
       {| wanted_after_plain := false;
          possible_range_check := false;
          possible_regex_check := false |} =
     {| wanted_after_plain := false;
        possible_range_check := true;
        possible_regex_check := false |}) /\
  (forall tag array g,
     tag_strings array = [{| tag_string := "2500"; operator := LESS_THAN |}] ->
     check_list tag "" array g = range_pass "" (tag_strings array) true g /\
     (sscanf_lf "" = None -> check_list tag "" array g = Returns true g)).
Proof.
  split; [apply tag_string_is_numeric_shape|].
  do 4 (split; [reflexivity|]).
  split; [by intros []|].
  intros tag array g Harray.
  assert (check_list tag "" array g = range_pass "" (tag_strings array) true g) as Hcl.
  { unfold check_list, bind at 1, get_globals.
    replace (if use_soundex (GlobalState g) && soundex_tag tag
             then soundex "" else "") with "" by (by destruct (_ && _)).
    rewrite Harray.
    destruct (tag_match_anywhere (GlobalState g)); cbn -[range_pass];
      unfold bind; by destruct (range_pass _ _ _ g) as [[] ?|]. }
  split; [exact Hcl|].
  intros Hlf. rewrite Hcl, Harray. cbn. unfold bind. by rewrite Hlf.
Qed.

End Classifier.

(** ** Diagnostics and outcomes *)

Lemma logged_nil g : logged [] g = g.
Proof.
  destruct g as [? ? [] ?]. unfold logged, with_GlobalState, set_logfile; cbn.
  by rewrite app_nil_r.
Qed.

Lemma logged_logged a b g : logged b (logged a g) = logged (a ++ b) g.
Proof.
  unfold logged, with_GlobalState, set_logfile; cbn. by rewrite app_assoc.
Qed.

Lemma sscanf_u_range s v : sscanf_u s = Some v -> 0 <= v < 2 ^ 32.
Proof.
  unfold sscanf_u, scan_unsigned.
  destruct (match skip_spaces s with
            | String c r =>
                if Ascii.eqb c "-" then (true, r)
                else if Ascii.eqb c "+" then (false, r) else (false, skip_spaces s)
            | EmptyString => (false, skip_spaces s)
            end) as [negative s2].
  destruct s2 as [|c r]; [done|].
  destruct (isdigit c); [|done].
  destruct (scan_digits (String c r) 0) as [x rest].
  intros [= <-]. unfold to_unsigned. apply Z.mod_pos_bound. lia.
Qed.

Lemma to_unsigned_range z : 0 <= to_unsigned z < 2 ^ 32.
Proof. unfold to_unsigned. apply Z.mod_pos_bound. lia. Qed.

(** Evaluation of the sscanf conversions on literal arguments. *)
Ltac evaluate_scans :=
  repeat match goal with
  | |- context [sscanf_u ?s] =>
      let v := eval vm_compute in (sscanf_u s) in change (sscanf_u s) with v
  | |- context [sscanf_month_day ?s ?m ?d] =>
      let v := eval vm_compute in (sscanf_month_day s m d) in
      change (sscanf_month_day s m d) with v
  end;
  cbv beta iota; unfold encoded_date;
  repeat match goal with
  | |- context [encoded_date_value ?y ?m ?d] =>
      let v := eval vm_compute in (encoded_date_value y m d) in
      change (encoded_date_value y m d) with v
  end.

Section Matchers.

Context {libc : Libc} {tags : TagCodes}.

Lemma relative_numeric_match_unsigned op a b g :
  0 <= a < 2 ^ 32 -> 0 <= b < 2 ^ 32 ->
  relative_numeric_match op (double_of_unsigned a) (double_of_unsigned b) g =
  Returns (relation_holds op a b) (logged (comparison_diagnostic op) g).
Proof.
  intros Ha Hb.
  destruct op; cbn [relative_numeric_match relation_holds comparison_diagnostic];
    unfold ret; rewrite ?logged_nil;
    rewrite ?double_lt_unsigned, ?double_le_unsigned, ?double_eq_unsigned by done;
    try done.
  - by rewrite Z.gtb_ltb.
  - by rewrite Z.geb_leb.
Qed.

Lemma check_elo_step_value elo_string game_elo sel g :
  0 <= game_elo < 2 ^ 32 ->
  exists msgs,
    check_elo_step elo_string game_elo sel g =
    Returns (criterion_succeeds elo_string game_elo sel) (logged msgs g).
Proof.
  intros Hrange. unfold check_elo_step, criterion_succeeds.
  destruct (operator sel) eqn:Hop; cbn [is_NONE negb];
    try (destruct (sscanf_u (tag_string sel)) as [v|] eqn:Hv;
         [ rewrite relative_numeric_match_unsigned by eauto using sscanf_u_range;
           by eexists
         | exists []; by rewrite logged_nil ]).
  exists []. rewrite logged_nil. by destruct (starts_with _ _).
Qed.

Lemma check_elo_loop_true elo_string game_elo items g :
  check_elo_loop elo_string game_elo items true g = Returns true g.
Proof. by destruct items. Qed.

Lemma check_elo_loop_value elo_string game_elo items : forall g,
  0 <= game_elo < 2 ^ 32 ->
  exists msgs,
    check_elo_loop elo_string game_elo items false g =
    Returns (existsb (criterion_succeeds elo_string game_elo) items) (logged msgs g).
Proof.
  induction items as [|sel items IH]; intros g Hrange; cbn [check_elo_loop existsb].
  - exists []. by rewrite logged_nil.
  - unfold bind.
    destruct (check_elo_step_value elo_string game_elo sel g Hrange) as [msgs ->].
    destruct (criterion_succeeds elo_string game_elo sel); cbn [orb].
    + rewrite check_elo_loop_true. by eexists.
    + destruct (IH (logged msgs g) Hrange) as [msgs' ->].
      rewrite logged_logged. by eexists.
Qed.

Lemma check_elo_loop_app elo_string game_elo items1 items2 : forall wanted g,
  check_elo_loop elo_string game_elo (items1 ++ items2) wanted g =
  match check_elo_loop elo_string game_elo items1 wanted g with
  | Returns wanted' g' => check_elo_loop elo_string game_elo items2 wanted' g'
  | Exits status g' => Exits status g'
  end.
Proof.
  induction items1 as [|sel items1 IH]; intros wanted g; [done|].
  destruct wanted.
  - change (((sel :: items1) ++ items2)%list) with (sel :: (items1 ++ items2)%list).
    by rewrite !check_elo_loop_true.
  - cbn [app check_elo_loop]. unfold bind.
    destruct (check_elo_step elo_string game_elo sel g); [apply IH|done].
Qed.

Lemma check_elo_loop_stops elo_string game_elo before sel after g :
  0 <= game_elo < 2 ^ 32 ->
  criterion_succeeds elo_string game_elo sel = true ->
  check_elo_loop elo_string game_elo (before ++ sel :: after) false g =
  check_elo_loop elo_string game_elo (before ++ [sel]) false g.
Proof.
  intros Hrange Hsel. rewrite !check_elo_loop_app.
  destruct (check_elo_loop elo_string game_elo before false g) as [[] g'|]; [|  |done].
  - by rewrite !check_elo_loop_true.
  - cbn [check_elo_loop]. unfold bind.
    destruct (check_elo_step_value elo_string game_elo sel g' Hrange) as [msgs ->].
    rewrite Hsel. by rewrite !check_elo_loop_true.
Qed.

Lemma check_time_period_loop_elo tag_str period items : forall wanted g,
  check_time_period_loop tag_str period items wanted g =
  check_elo_loop tag_str period items wanted g.
Proof.
  induction items as [|sel items IH]; intros wanted g; [done|].
  cbn [check_time_period_loop check_elo_loop]. destruct wanted; [done|].
  unfold bind. change (check_time_period_step tag_str period sel g)
    with (check_elo_step tag_str period sel g).
  destruct (check_elo_step tag_str period sel g); [apply IH|done].
Qed.

(** C6. check_elo and check_time_period scan the criteria in list order and
    return TRUE exactly when some criterion succeeds: one without operator
    by prefix equality with the candidate text, a relational one by
    comparing the candidate's number with the number of the pattern. Once a
    criterion has succeeded the criteria after it have no effect at all,
    neither on the verdict nor on the log. With the criteria > 2700 and
    > 2800 the candidate 2750 is accepted, as it is with > 2700 alone. *)
Theorem elo_and_time_period_first_success
    (candidate : string) (number : Z) (allocated : Z)
    (items : list TagSelection) (g : Globals) :
  0 <= number < 2 ^ 32 ->
  let array := {| num_allocated_elements := allocated; tag_strings := items |} in
  (sscanf_u candidate = Some number ->
   exists msgs,
     check_elo candidate array g =
     Returns (existsb (criterion_succeeds candidate number) items) (logged msgs g)) /\
  (exists msgs,
     check_time_period candidate number array g =
     Returns (existsb (criterion_succeeds candidate number) items) (logged msgs g)) /\
  (forall before sel after,
     items = (before ++ sel :: after)%list ->
     criterion_succeeds candidate number sel = true ->
     let shorter :=
       {| num_allocated_elements := allocated; tag_strings := before ++ [sel] |} in
     (sscanf_u candidate = Some number ->
      check_elo candidate array g = check_elo candidate shorter g) /\
     check_time_period candidate number array g =
     check_time_period candidate number shorter g) /\
  check_elo "2750"
    {| num_allocated_elements := allocated;
       tag_strings := [{| tag_string := "2700"; operator := GREATER_THAN |};
                       {| tag_string := "2800"; operator := GREATER_THAN |}] |} g =
  Returns true g /\
  check_elo "2750"
    {| num_allocated_elements := allocated;
       tag_strings := [{| tag_string := "2700"; operator := GREATER_THAN |}] |} g =
  Returns true g.
Proof.
  intros Hrange array. repeat split.
  - intros Hnumber. unfold check_elo. rewrite Hnumber.
    by apply check_elo_loop_value.
  - unfold check_time_period. rewrite check_time_period_loop_elo.
    by apply check_elo_loop_value.
  - intros Hnumber. unfold check_elo. rewrite Hnumber. subst items.
    by apply check_elo_loop_stops.
  - unfold check_time_period. rewrite !check_time_period_loop_elo. subst items.
    by apply check_elo_loop_stops.
  - unfold check_elo. change (sscanf_u "2750") with (Some 2750).
    cbn [tag_strings check_elo_loop]. unfold bind, check_elo_step.
    cbn [tag_string operator is_NONE negb].
    change (sscanf_u "2700") with (Some 2700). cbv beta iota.
    rewrite relative_numeric_match_unsigned by (cbn; lia).
    cbn [comparison_diagnostic]. rewrite logged_nil. reflexivity.
  - unfold check_elo. change (sscanf_u "2750") with (Some 2750).
    cbn [tag_strings check_elo_loop]. unfold bind, check_elo_step.
    cbn [tag_string operator is_NONE negb].
    change (sscanf_u "2700") with (Some 2700). cbv beta iota.
    rewrite relative_numeric_match_unsigned by (cbn; lia).
    cbn [comparison_diagnostic]. rewrite logged_nil. reflexivity.
Qed.

(** ** Dates *)

Lemma check_date_step_returns date_string game_year month day list_index sel wanted g :
  exists verdict msgs,
    check_date_step date_string game_year (encoded_date game_year month day)
      list_index sel wanted g = Returns verdict (logged msgs g).
Proof.
  unfold check_date_step. destruct (date_selection sel) as [op list_string].
  destruct (negb (is_NONE op)).
  - destruct (sscanf_u list_string) as [list_year|].
    + destruct (_ && _); [|exists false, []; by rewrite logged_nil].
      destruct (sscanf_month_day list_string 1 1) as [list_month list_day].
      unfold bind, encoded_date.
      rewrite relative_numeric_match_unsigned by apply to_unsigned_range.
      destruct (list_index =? 0)%nat; by eexists _, _.
    + unfold bind, fprintf_logfile, ret. by eexists _, _.
  - exists (if (list_index =? 0)%nat || negb wanted
            then starts_with date_string list_string else wanted), [].
    rewrite logged_nil. by destruct (_ || _).
Qed.

Lemma check_date_step_relational date_string game_year list_index sel wanted g :
  sscanf_u date_string = Some game_year ->
  fst (date_selection sel) <> NONE ->
  exists msgs,
    check_date_step date_string game_year
      (encoded_date game_year (fst (sscanf_month_day date_string 1 1))
         (snd (sscanf_month_day date_string 1 1)))
      list_index sel wanted g =
    Returns (if (list_index =? 0)%nat then date_relation_holds date_string sel
             else wanted && date_relation_holds date_string sel)
      (logged msgs g).
Proof.
  intros Hyear Hop.
  unfold check_date_step, date_relation_holds, date_magnitude.
  rewrite Hyear.
  destruct (date_selection sel) as [op list_string]. cbn [fst] in Hop.
  destruct (sscanf_month_day date_string 1 1) as [game_month game_day]. cbn [fst snd].
  replace (negb (is_NONE op)) with true by (by destruct op).
  destruct (sscanf_u list_string) as [list_year|].
  - rewrite Z.gtb_ltb.
    destruct (sscanf_month_day list_string 1 1) as [list_month list_day].
    destruct ((MINDATE <? game_year) && (game_year <? MAXDATE)).
    + unfold bind, encoded_date.
      rewrite relative_numeric_match_unsigned by apply to_unsigned_range.
      cbn [andb]. destruct (list_index =? 0)%nat; by eexists.
    + exists []. rewrite logged_nil. cbn [andb].
      destruct (list_index =? 0)%nat; [done|]. by rewrite andb_false_r.
  - unfold bind, fprintf_logfile, ret. eexists.
    destruct (list_index =? 0)%nat; [done|]. by rewrite andb_false_r.
Qed.

Lemma check_date_loop_app date_string game_year encoded items1 items2 :
  forall list_index wanted g,
  check_date_loop date_string game_year encoded list_index (items1 ++ items2) wanted g =
  match check_date_loop date_string game_year encoded list_index items1 wanted g with
  | Returns wanted' g' =>
      check_date_loop date_string game_year encoded
        (list_index + List.length items1) items2 wanted' g'
  | Exits status g' => Exits status g'
  end.
Proof.
  induction items1 as [|sel items1 IH]; intros list_index wanted g.
  - cbn [app check_date_loop List.length]. unfold ret. by rewrite Nat.add_0_r.
  - cbn [app check_date_loop List.length]. unfold bind.
    destruct (check_date_step _ _ _ _ _ _ g); [|done].
    rewrite IH. by replace (S list_index + List.length items1)%nat
      with (list_index + S (List.length items1))%nat by lia.
Qed.

Lemma check_date_loop_returns date_string game_year month day items :
  forall list_index wanted g,
  exists verdict msgs,
    check_date_loop date_string game_year (encoded_date game_year month day)
      list_index items wanted g = Returns verdict (logged msgs g).
Proof.
  induction items as [|sel items IH]; intros list_index wanted g.
  - exists wanted, []. by rewrite logged_nil.
  - cbn [check_date_loop]. unfold bind.
    destruct (check_date_step_returns date_string game_year month day
                list_index sel wanted g) as (v & msgs & ->).
    destruct (IH (S list_index) v (logged msgs g)) as (v' & msgs' & ->).
    rewrite logged_logged. by eexists _, _.
Qed.

Lemma check_date_returns date_string array g :
  exists verdict msgs, check_date date_string array g = Returns verdict (logged msgs g).
Proof.
  unfold check_date. destruct (sscanf_u date_string) as [game_year|].
  - destruct (sscanf_month_day date_string 1 1) as [game_month game_day].
    apply check_date_loop_returns.
  - exists false, []. by rewrite logged_nil.
Qed.

Lemma check_date_snoc date_string allocated items sel g :
  fst (date_selection sel) <> NONE ->
  exists verdict msgs msgs',
    check_date date_string
      {| num_allocated_elements := allocated; tag_strings := items |} g =
    Returns verdict (logged msgs g) /\
    check_date date_string
      {| num_allocated_elements := allocated; tag_strings := items ++ [sel] |} g =
    Returns (match items with
             | [] => date_relation_holds date_string sel
             | _ :: _ => verdict && date_relation_holds date_string sel
             end) (logged msgs' g).
Proof.
  intros Hop. unfold check_date. cbn [tag_strings].
  destruct (sscanf_u date_string) as [game_year|] eqn:Hyear.
  - pose proof (check_date_step_relational date_string game_year
                  (List.length items) sel) as Hstep.
    destruct (sscanf_month_day date_string 1 1) as [game_month game_day].
    cbn [fst snd] in Hstep.
    rewrite check_date_loop_app.
    destruct (check_date_loop_returns date_string game_year game_month game_day
                items 0 false g) as (verdict & msgs & ->).
    cbn [check_date_loop Nat.add]. unfold bind.
    destruct (Hstep verdict (logged msgs g) Hyear Hop) as [msgs' ->].
    unfold ret. rewrite logged_logged.
    exists verdict, msgs, (msgs ++ msgs')%list. split; [done|].
    by destruct items.
  - exists false, [], []. rewrite logged_nil. split; [done|].
    unfold date_relation_holds. destruct (date_selection sel).
    rewrite Hyear. by destruct items.
Qed.

(** C5. In check_date a pattern that starts with b is evaluated as
    LESS_THAN on the rest of the pattern, one that starts with a as
    GREATER_THAN on the rest, and any other pattern with its stored operator.
    A relational criterion that stands first in the list sets the running
    result; one that comes later is combined with the result of the
    criteria before it by AND. With the criteria > 1990 and < 2000 the date
    1995.06.01 is accepted and 2005.01.01 and 1985.01.01 are rejected. *)
Theorem date_letters_and_relational_conjunction
    (date_string : string) (allocated : Z) (items : list TagSelection)
    (sel : TagSelection) (g : Globals) :
  (forall rest op,
     date_selection {| tag_string := String "b" rest; operator := op |} =
     (LESS_THAN, rest)) /\
  (forall rest op,
     date_selection {| tag_string := String "a" rest; operator := op |} =
     (GREATER_THAN, rest)) /\
  (forall pattern op,
     head_char pattern <> "b"%char -> head_char pattern <> "a"%char ->
     date_selection {| tag_string := pattern; operator := op |} = (op, pattern)) /\
  (fst (date_selection sel) <> NONE ->
   exists verdict msgs msgs',
     check_date date_string
       {| num_allocated_elements := allocated; tag_strings := items |} g =
     Returns verdict (logged msgs g) /\
     check_date date_string
       {| num_allocated_elements := allocated; tag_strings := items ++ [sel] |} g =
     Returns (match items with
              | [] => date_relation_holds date_string sel
              | _ :: _ => verdict && date_relation_holds date_string sel
              end) (logged msgs' g)) /\
  let between :=
    {| num_allocated_elements := allocated;
       tag_strings := [{| tag_string := "1990"; operator := GREATER_THAN |};
                       {| tag_string := "2000"; operator := LESS_THAN |}] |} in
  check_date "1995.06.01" between g = Returns true g /\
  check_date "2005.01.01" between g = Returns false g /\
  check_date "1985.01.01" between g = Returns false g.
Proof.
  split; [done|]. split; [done|]. split.
  { intros pattern op Hb Ha. unfold date_selection. cbn [tag_string operator].
    destruct pattern as [|c pattern]; [done|]. cbn [head_char] in Hb, Ha.
    destruct (Ascii.eqb_spec c "b"); [done|].
    by destruct (Ascii.eqb_spec c "a"). }
  split; [apply check_date_snoc|].
  repeat split;
    unfold check_date; cbn [tag_strings check_date_loop];
    unfold check_date_step, bind, ret;
    cbv [date_selection tag_string operator is_NONE negb Ascii.eqb Bool.eqb];
    evaluate_scans; cbn [relative_numeric_match Nat.eqb andb]; unfold ret;
    rewrite !double_lt_unsigned by (cbn; lia); reflexivity.
Qed.

(** ** Time controls *)

Lemma strchr_contains s c : bool_decide (is_Some (strchr s c)) = contains c s.
Proof.
  induction s as [|d s IH]; cbn [strchr contains].
  - apply bool_decide_eq_false. by intros [? ?].
  - destruct (Ascii.eqb d c); cbn [orb]; [|done].
    apply bool_decide_eq_true. by eexists.
Qed.

Lemma strchr_after_first s c :
  match strchr s c with
  | Some rest => contains c s = true /\ advance rest = after_first c s
  | None => contains c s = false
  end.
Proof.
  induction s as [|d s IH]; cbn [strchr contains after_first]; [done|].
  destruct (Ascii.eqb d c); cbn [orb advance]; [done|]. exact IH.
Qed.

Lemma skip_digits_all_digits s :
  is_empty (skip_digits s) = all_chars isdigit s.
Proof.
  induction s as [|c s IH]; cbn [skip_digits all_chars]; [done|].
  by destruct (isdigit c).
Qed.

Lemma sudden_death_test control :
  (if isdigit (head_char control) then is_empty (skip_digits control) else false) =
  negb (is_empty control) && all_chars isdigit control.
Proof.
  rewrite skip_digits_all_digits. destruct control as [|c control]; [done|].
  cbn [head_char is_empty negb andb all_chars]. by destruct (isdigit c).
Qed.

Lemma head_char_cut_at tc_string :
  Ascii.eqb (head_char tc_string) ":" = false ->
  head_char (cut_at ":" tc_string) = head_char tc_string.
Proof. destruct tc_string as [|c s]; [done|]. cbn. by intros ->. Qed.

Lemma cut_at_idem c s : cut_at c (cut_at c s) = cut_at c s.
Proof.
  induction s as [|d s IH]; cbn [cut_at]; [done|].
  destruct (Ascii.eqb d c) eqn:Hd; cbn [cut_at]; [done|]. by rewrite Hd, IH.
Qed.

Lemma check_time_control_period tc_string array g :
  check_time_control tc_string array g =
  if nothing_to_compare tc_string then Returns false g
  else
    match time_control_period (cut_at ":" tc_string) with
    | Some period => check_time_period (cut_at ":" tc_string) period array g
    | None => Returns false g
    end.
Proof.
  unfold check_time_control, nothing_to_compare, time_control_period,
    time_control_shape.
  destruct (_ || _); [done|].
  set (control := cut_at ":" tc_string).
  rewrite strchr_contains.
  destruct (contains "+" control).
  { cbn [period_text]. by destruct (sscanf_u control). }
  destruct (Ascii.eqb (head_char control) "*").
  { cbn [period_text]. by destruct (sscanf_u (advance control)). }
  pose proof (strchr_after_first control "/") as Hslash.
  destruct (strchr control "/") as [slash|].
  { destruct Hslash as [-> Hrest]. cbn [period_text]. rewrite <- Hrest.
    by destruct (sscanf_u (advance slash)). }
  rewrite Hslash, <- sudden_death_test.
  destruct (isdigit (head_char control)); [|done].
  destruct (is_empty (skip_digits control)); [|done].
  cbn [period_text]. by destruct (sscanf_u control).
Qed.

Lemma time_control_period_range control period :
  time_control_period control = Some period -> 0 <= period < 2 ^ 32.
Proof.
  unfold time_control_period. destruct (time_control_shape control); [|done].
  apply sscanf_u_range.
Qed.

(** C7. check_time_control looks only at the text before the first colon.
    From that text a period is read for exactly four shapes (a text with a
    plus sign, a text that starts with a star, a text with a slash, a text of
    digits only) and the verdict is that of check_time_period for the cut
    text and this period: TRUE exactly when some criterion succeeds, a
    relational one against the period, one without operator as a prefix of
    the cut text. Without a period the verdict is FALSE. An empty time
    control, a question mark and a dash match no list of criteria.
    40/7200:20/3600 is cut to 40/7200 with period 7200; 300+5 has period
    300. *)
Theorem time_control_cut_shape_period
    (tc_string : string) (array : StringArray) (g : Globals) :
  let control := cut_at ":" tc_string in
  check_time_control tc_string array g = check_time_control control array g /\
  (nothing_to_compare tc_string = true ->
   check_time_control tc_string array g = Returns false g) /\
  (nothing_to_compare tc_string = false ->
   match time_control_period control with
   | Some period =>
       check_time_control tc_string array g =
         check_time_period control period array g /\
       exists msgs,
         check_time_control tc_string array g =
         Returns (existsb (criterion_succeeds control period) (tag_strings array))
           (logged msgs g)
   | None => check_time_control tc_string array g = Returns false g
   end) /\
  check_time_control "" array g = Returns false g /\
  check_time_control "?" array g = Returns false g /\
  check_time_control "-" array g = Returns false g /\
  cut_at ":" "40/7200:20/3600" = "40/7200" /\
  time_control_shape "40/7200" = Some MOVES_PER_PERIOD /\
  time_control_period "40/7200" = Some 7200 /\
  time_control_shape "300+5" = Some PERIOD_PLUS_INCREMENT /\
  time_control_period "300+5" = Some 300 /\
  time_control_shape "*180" = Some SANDCLOCK /\
  time_control_period "*180" = Some 180 /\
  time_control_shape "600" = Some SUDDEN_DEATH /\
  time_control_period "600" = Some 600.
Proof.
  intros control. subst control. split; [|split; [|split]].
  - rewrite !check_time_control_period. rewrite cut_at_idem.
    destruct (Ascii.eqb (head_char tc_string) ":") eqn:Hcolon.
    + destruct tc_string as [|c s]; [done|]. cbn [head_char] in Hcolon.
      apply Ascii.eqb_eq in Hcolon as ->. reflexivity.
    + unfold nothing_to_compare. by rewrite head_char_cut_at.
  - intros Hnothing. by rewrite check_time_control_period, Hnothing.
  - intros Hnothing. rewrite check_time_control_period, Hnothing.
    destruct (time_control_period _) as [period|] eqn:Hperiod; [|done].
    split; [done|]. unfold check_time_period.
    rewrite check_time_period_loop_elo.
    eapply check_elo_loop_value, time_control_period_range, Hperiod.
  - repeat split.
Qed.

(** ** The generic matcher *)

Lemma plain_pass_found anywhere numeric search_str items acc :
  wanted_after_plain acc = true ->
  plain_pass anywhere numeric search_str items acc = acc.
Proof. intros H. destruct items; cbn [plain_pass]; by rewrite ?H. Qed.

Lemma plain_pass_wanted anywhere numeric search_str items : forall acc,
  wanted_after_plain acc = false ->
  wanted_after_plain (plain_pass anywhere numeric search_str items acc) =
  existsb (fun sel => plain_test anywhere search_str (tag_string sel)) items.
Proof.
  induction items as [|sel items IH]; intros acc Hacc; cbn [plain_pass existsb]; [done|].
  rewrite Hacc.
  destruct (plain_test anywhere search_str (tag_string sel)) eqn:Htest; cbn [orb].
  - by rewrite plain_pass_found.
  - by apply IH.
Qed.

(** Without a text match the first loop requests the range check as soon as
    the search string is numeric and some entry has an operator, whichever
    it is, and the regex check as soon as some entry has the REGEX
    operator. *)
Lemma plain_pass_without_match anywhere numeric search_str items : forall acc,
  wanted_after_plain acc = false ->
  existsb (fun sel => plain_test anywhere search_str (tag_string sel)) items = false ->
  plain_pass anywhere numeric search_str items acc =
  {| wanted_after_plain := false;
     possible_range_check :=
       possible_range_check acc ||
       (numeric && existsb (fun sel => negb (is_NONE (operator sel))) items);
     possible_regex_check :=
       possible_regex_check acc ||
       existsb (fun sel => is_REGEX (operator sel)) items |}.
Proof.
  induction items as [|sel items IH]; intros acc Hacc Hnone.
  - destruct acc as [w r x]. cbn in *. subst w.
    by rewrite andb_false_r, !orb_false_r.
  - cbn [existsb] in Hnone. apply orb_false_elim in Hnone as [Hsel Hitems].
    cbn [plain_pass existsb]. rewrite Hacc, Hsel. cbn [negb andb].
    rewrite IH by done. cbn [possible_range_check possible_regex_check].
    f_equal.
    + destruct (operator sel), numeric, (possible_range_check acc);
        cbn; try done; by rewrite ?orb_true_r.
    + by destruct (operator sel), (possible_regex_check acc).
Qed.

Lemma range_pass_regex_entries search_str items : forall g,
  Forall (fun sel => operator sel = REGEX) items ->
  range_pass search_str items true g =
  Returns true (logged (replicate (List.length items) missing_case_in_check_list) g).
Proof.
  induction items as [|sel items IH]; intros g Hitems.
  - cbn. unfold ret. by rewrite logged_nil.
  - apply Forall_cons in Hitems as [Hsel Hitems].
    cbn [range_pass List.length replicate]. unfold bind, range_step.
    rewrite Hsel. unfold bind, fprintf_logfile, ret.
    rewrite IH by done. by rewrite logged_logged.
Qed.

Lemma check_list_unfold tag tag_str array g :
  check_list tag tag_str array g =
  let search_str := search_string g tag tag_str in
  let plain :=
    plain_pass (tag_match_anywhere (GlobalState g))
      (tag_string_is_numeric search_str) search_str (tag_strings array)
      {| wanted_after_plain := false;
         possible_range_check := false;
         possible_regex_check := false |} in
  if wanted_after_plain plain then Returns true g
  else
    match
      (if possible_range_check plain
       then range_pass search_str (tag_strings array) true g
       else Returns false g)
    with
    | Returns wanted g' =>
        if negb wanted && possible_regex_check plain
        then Returns (regex_pass search_str (tag_strings array) wanted) g'
        else Returns wanted g'
    | Exits status g' => Exits status g'
    end.
Proof.
  unfold check_list, bind at 1, get_globals, search_string. cbv zeta.
  destruct (wanted_after_plain _) eqn:Hw; cbn [negb]; [done|].
  unfold bind, ret. destruct (possible_range_check _).
  - destruct (range_pass _ _ _ g) as [w g'|]; [|done]. by destruct (negb w && _).
  - by destruct (negb false && _).
Qed.

(** C1. For a search string of numeric shape, a non-empty list whose
    entries all carry the REGEX operator and none of whose patterns is found
    by the text test, check_list enters the relational loop, finds nothing
    to compare, writes its missing-case message once per entry and returns
    TRUE; the regular expressions are never tried. *)
Theorem regex_only_list_takes_range_pass
    (tag : Z) (tag_str : string) (array : StringArray) (g : Globals) :
  let search_str := search_string g tag tag_str in
  tag_string_is_numeric search_str = true ->
  tag_strings array <> [] ->
  Forall (fun sel =>
            operator sel = REGEX /\
            plain_test (tag_match_anywhere (GlobalState g)) search_str
              (tag_string sel) = false)
    (tag_strings array) ->
  check_list tag tag_str array g =
  Returns true
    (logged (replicate (List.length (tag_strings array)) missing_case_in_check_list) g).
Proof.
  intros search_str Hnumeric Hnonempty Hitems.
  rewrite check_list_unfold. fold search_str. cbv zeta.
  rewrite plain_pass_without_match; cycle 1.
  { done. }
  { apply not_true_is_false. intros Hex. apply existsb_exists in Hex as (sel & Hin & Htest).
    rewrite Forall_forall in Hitems. apply list_elem_of_In in Hin.
    destruct (Hitems sel Hin) as [_ Hno]. congruence. }
  cbn [wanted_after_plain possible_range_check possible_regex_check orb].
  rewrite Hnumeric. cbn [andb].
  replace (existsb (fun sel => negb (is_NONE (operator sel))) (tag_strings array))
    with true.
  2:{ destruct (tag_strings array) as [|sel items]; [done|].
      apply Forall_cons in Hitems as [[Hop _] _]. cbn [existsb]. by rewrite Hop. }
  rewrite range_pass_regex_entries; [done|].
  eapply Forall_impl; [exact Hitems|]. by intros sel [? _].
Qed.

(** C2. The text test of the first loop of check_list is made for every
    entry, whatever its operator: as soon as the pattern of some entry is
    found in the search string (as a prefix, or anywhere in the anywhere
    mode), check_list returns TRUE and nothing else is looked at. *)
Theorem plain_test_disregards_operator
    (tag : Z) (tag_str : string) (array : StringArray) (g : Globals) :
  existsb (fun sel =>
             plain_test (tag_match_anywhere (GlobalState g))
               (search_string g tag tag_str) (tag_string sel))
    (tag_strings array) = true ->
  check_list tag tag_str array g = Returns true g.
Proof.
  intros Hfound. rewrite check_list_unfold. cbv zeta.
  by rewrite plain_pass_wanted, Hfound.
Qed.

(** ** Every matcher returns, and writes nothing but the log *)

Lemma relative_numeric_match_returns op lhs rhs g :
  exists verdict msgs,
    relative_numeric_match op lhs rhs g = Returns verdict (logged msgs g).
Proof.
  destruct op; cbn [relative_numeric_match]; unfold bind, fprintf_logfile, ret;
    try (eexists _, []; by rewrite logged_nil); by eexists _, [_].
Qed.

Lemma range_step_returns search_str selection wanted g :
  exists verdict msgs,
    range_step search_str selection wanted g = Returns verdict (logged msgs g).
Proof.
  unfold range_step.
  destruct (operator selection);
    try (unfold bind, fprintf_logfile, ret; by eexists _, [_]);
    try (exists wanted, []; by rewrite logged_nil);
    (destruct (sscanf_lf search_str);
       [|exists wanted, []; by rewrite logged_nil]);
    (destruct (sscanf_lf (tag_string selection));
       [|exists wanted, []; by rewrite logged_nil]);
    apply relative_numeric_match_returns.
Qed.

Lemma range_pass_returns search_str items : forall wanted g,
  exists verdict msgs,
    range_pass search_str items wanted g = Returns verdict (logged msgs g).
Proof.
  induction items as [|selection items IH]; intros wanted g; cbn [range_pass].
  - exists wanted, []. by rewrite logged_nil.
  - destruct wanted; [|exists false, []; by rewrite logged_nil].
    unfold bind.
    destruct (range_step_returns search_str selection true g) as (v & msgs & ->).
    destruct (IH v (logged msgs g)) as (v' & msgs' & ->).
    rewrite logged_logged. by eexists _, _.
Qed.

Lemma check_list_returns tag tag_str array g :
  exists verdict msgs,
    check_list tag tag_str array g = Returns verdict (logged msgs g).
Proof.
  rewrite check_list_unfold. cbv zeta.
  destruct (wanted_after_plain _); [exists true, []; by rewrite logged_nil|].
  destruct (possible_range_check _).
  - destruct (range_pass_returns (search_string g tag tag_str) (tag_strings array)
                true g) as (v & msgs & ->).
    destruct (negb v && _); by eexists _, _.
  - destruct (negb false && _); eexists _, []; by rewrite logged_nil.
Qed.

Lemma check_elo_returns elo_string array g :
  exists verdict msgs,
    check_elo elo_string array g = Returns verdict (logged msgs g).
Proof.
  unfold check_elo. destruct (sscanf_u elo_string) as [game_elo|] eqn:Helo.
  - destruct (check_elo_loop_value elo_string game_elo (tag_strings array) g)
      as [msgs ->]; [by eapply sscanf_u_range|]. by eexists _, _.
  - exists false, []. by rewrite logged_nil.
Qed.

Lemma check_time_control_returns tc_string array g :
  exists verdict msgs,
    check_time_control tc_string array g = Returns verdict (logged msgs g).
Proof.
  rewrite check_time_control_period.
  destruct (nothing_to_compare tc_string); [exists false, []; by rewrite logged_nil|].
  destruct (time_control_period _) as [period|] eqn:Hperiod;
    [|exists false, []; by rewrite logged_nil].
  unfold check_time_period. rewrite check_time_period_loop_elo.
  destruct (check_elo_loop_value (cut_at ":" tc_string) period (tag_strings array) g)
    as [msgs ->]; [by eapply time_control_period_range|]. by eexists _, _.
Qed.

(** ** The record selector *)

Lemma check_tag_returns g0 Details tag wanted g :
  exists verdict msgs,
    check_tag g0 Details tag wanted g = Returns verdict (logged msgs g).
Proof.
  unfold check_tag.
  repeat (destruct (_ =? _); [exists wanted, []; by rewrite logged_nil|]).
  destruct (negb _); [|exists wanted, []; by rewrite logged_nil].
  destruct (Details_at Details tag) as [value|]; [|exists false, []; by rewrite logged_nil].
  destruct (tag =? DATE_TAG); [apply check_date_returns|].
  destruct (_ || _); [apply check_elo_returns|].
  destruct (tag =? TIME_CONTROL_TAG);
    [apply check_time_control_returns|apply check_list_returns].
Qed.

Lemma check_tags_from_returns g0 Details remaining : forall first wanted g,
  exists verdict msgs,
    check_tags_from g0 Details remaining first wanted g = Returns verdict (logged msgs g).
Proof.
  induction remaining as [|remaining IH]; intros first wanted g; cbn [check_tags_from].
  - exists wanted, []. by rewrite logged_nil.
  - destruct wanted; [|exists false, []; by rewrite logged_nil].
    unfold bind.
    destruct (check_tag_returns g0 Details first true g) as (v & msgs & ->).
    destruct (IH (first + 1) v (logged msgs g)) as (v' & msgs' & ->).
    rewrite logged_logged. by eexists _, _.
Qed.

(** Tags whose list is empty, and the three tags the loop steps over, leave
    the running verdict as it is. *)
Lemma check_tags_from_unconstrained g0 Details remaining : forall first wanted g,
  (forall tag, first <= tag < first + Z.of_nat remaining ->
     tag = PSEUDO_PLAYER_TAG \/ tag = PSEUDO_ELO_TAG \/ tag = ECO_TAG \/
     num_used_elements (TagLists_at g0 tag) = 0) ->
  check_tags_from g0 Details remaining first wanted g = Returns wanted g.
Proof.
  induction remaining as [|remaining IH]; intros first wanted g Hfree;
    cbn [check_tags_from]; [done|].
  destruct wanted; [|done].
  unfold bind.
  assert (check_tag g0 Details first true g = Returns true g) as ->.
  { unfold check_tag.
    destruct (Z.eqb_spec first PSEUDO_PLAYER_TAG); [done|].
    destruct (Z.eqb_spec first PSEUDO_ELO_TAG); [done|].
    destruct (Z.eqb_spec first ECO_TAG); [done|].
    destruct (Hfree first) as [?|[?|[?|Hempty]]]; [lia|done..|].
    by rewrite Hempty. }
  apply IH. intros tag Htag. apply Hfree. lia.
Qed.

(** C3. When the either-rating list has criteria, the verdict of the
    either-rating clause replaces the verdict of the either-player clause
    instead of being combined with it: if the white rating satisfies a
    rating criterion and no other tag is constrained,
    check_tag_details_not_ECO returns TRUE whatever the either-player
    criteria and the players' names are. *)
Theorem either_rating_replaces_either_player
    (Details : list (option string)) (num_details : Z) (g : Globals)
    (white_elo : string) (rating : Z) :
  check_tags (GlobalState g) = true ->
  tag_list_length g <= num_details ->
  (forall tag, 0 <= tag < tag_list_length g ->
     tag = PSEUDO_PLAYER_TAG \/ tag = PSEUDO_ELO_TAG \/ tag = ECO_TAG \/
     num_used_elements (TagLists_at g tag) = 0) ->
  Details_at Details WHITE_ELO_TAG = Some white_elo ->
  sscanf_u white_elo = Some rating ->
  existsb (criterion_succeeds white_elo rating)
    (tag_strings (TagLists_at g PSEUDO_ELO_TAG)) = true ->
  exists msgs,
    check_tag_details_not_ECO Details num_details g = Returns true (logged msgs g).
Proof.
  intros Hcheck Hcount Hfree Hwhite Hrating Hsucceeds.
  unfold check_tag_details_not_ECO, bind at 1, get_globals. rewrite Hcheck.
  unfold bind at 1. replace (num_details <? tag_list_length g) with false by lia.
  unfold ret at 1.
  assert (exists player msgs1,
    (if negb (num_used_elements (TagLists_at g PSEUDO_PLAYER_TAG) =? 0)
     then
       match Details_at Details WHITE_TAG with
       | Some white =>
           let* wanted := check_list WHITE_TAG white (TagLists_at g PSEUDO_PLAYER_TAG) in
           match Details_at Details BLACK_TAG with
           | Some black =>
               if negb wanted
               then check_list BLACK_TAG black (TagLists_at g PSEUDO_PLAYER_TAG)
               else ret wanted
           | None => ret wanted
           end
       | None =>
           match Details_at Details BLACK_TAG with
           | Some black => check_list BLACK_TAG black (TagLists_at g PSEUDO_PLAYER_TAG)
           | None => ret false
           end
       end
     else ret true) g = Returns player (logged msgs1 g)) as (player & msgs1 & Hplayer).
  { destruct (negb _); [|exists true, []; by rewrite logged_nil].
    destruct (Details_at Details WHITE_TAG) as [white|].
    - unfold bind.
      destruct (check_list_returns WHITE_TAG white (TagLists_at g PSEUDO_PLAYER_TAG) g)
        as (v & msgs & ->).
      destruct (Details_at Details BLACK_TAG) as [black|]; [|by eexists _, _].
      destruct (negb v); [|by eexists _, _].
      destruct (check_list_returns BLACK_TAG black (TagLists_at g PSEUDO_PLAYER_TAG)
                  (logged msgs g)) as (v' & msgs' & ->).
      rewrite logged_logged. by eexists _, _.
    - destruct (Details_at Details BLACK_TAG) as [black|];
        [apply check_list_returns|exists false, []; by rewrite logged_nil]. }
  unfold bind at 1. rewrite Hplayer.
  replace (negb (num_used_elements (TagLists_at g PSEUDO_ELO_TAG) =? 0)) with true.
  2:{ unfold num_used_elements.
      destruct (tag_strings (TagLists_at g PSEUDO_ELO_TAG)); [done|].
      cbn [List.length]. symmetry. apply negb_true_iff, Z.eqb_neq. lia. }
  rewrite Hwhite. unfold bind. unfold check_elo at 1. rewrite Hrating.
  destruct (check_elo_loop_value white_elo rating
              (tag_strings (TagLists_at g PSEUDO_ELO_TAG)) (logged msgs1 g))
    as [msgs2 ->]; [by eapply sscanf_u_range|].
  rewrite Hsucceeds, logged_logged.
  assert (forall g', (match Details_at Details BLACK_ELO_TAG with
                      | Some black_elo =>
                          if negb true
                          then check_elo black_elo (TagLists_at g PSEUDO_ELO_TAG)
                          else ret true
                      | None => ret true
                      end) g' = Returns true g') as ->
    by (intros g'; by destruct (Details_at Details BLACK_ELO_TAG)).
  rewrite check_tags_from_unconstrained; [by eexists|].
  intros tag Htag. apply Hfree. lia.
Qed.

(** C4, as the code has it. While the check-tags flag is set, a tag count
    below tag_list_length makes check_tag_details_not_ECO write its two-part
    mismatch message and exit with status 1; with a tag count equal to
    tag_list_length or above it the function returns a verdict. *)
Theorem tag_count_below_registry_is_fatal
    (Details : list (option string)) (num_details : Z) (g : Globals) :
  check_tags (GlobalState g) = true ->
  (num_details < tag_list_length g ->
   check_tag_details_not_ECO Details num_details g =
   Exits 1
     (logged ["Internal error: mismatch in tag set lengths in ";
              "CheckTagDetailsNotECO: " ++ decimal num_details ++ " vs " ++
              decimal (tag_list_length g) ++ newline] g)) /\
  (tag_list_length g <= num_details ->
   exists verdict msgs,
     check_tag_details_not_ECO Details num_details g =
     Returns verdict (logged msgs g)).
Proof.
  intros Hcheck. split; intros Hcount;
    unfold check_tag_details_not_ECO, bind at 1, get_globals; rewrite Hcheck;
    unfold bind at 1.
  - replace (num_details <? tag_list_length g) with true by lia.
    unfold bind, fprintf_logfile, exit. by rewrite logged_logged.
  - replace (num_details <? tag_list_length g) with false by lia.
    unfold ret at 1.
    assert (forall (m : Run bool) (k : bool -> Run bool),
              (forall g', exists v msgs, m g' = Returns v (logged msgs g')) ->
              (forall w g', exists v msgs, k w g' = Returns v (logged msgs g')) ->
              forall g', exists v msgs, bind m k g' = Returns v (logged msgs g'))
      as Hbind.
    { intros m k Hm Hk g'. unfold bind. destruct (Hm g') as (w & msgs & ->).
      destruct (Hk w (logged msgs g')) as (v & msgs' & ->).
      rewrite logged_logged. by eexists _, _. }
    assert (forall w g', exists v msgs, ret (A := bool) w g' = Returns v (logged msgs g'))
      as Hret by (intros w g'; exists w, []; by rewrite logged_nil).
    apply Hbind; [|intros w1; apply Hbind; [|intros w2 g'; apply check_tags_from_returns]].
    + destruct (negb _); [|apply Hret].
      destruct (Details_at Details WHITE_TAG).
      * apply Hbind; [intros g'; apply check_list_returns|]. intros w.
        destruct (Details_at Details BLACK_TAG); [|apply Hret].
        destruct (negb w); [intros g'; apply check_list_returns|apply Hret].
      * destruct (Details_at Details BLACK_TAG);
          [intros g'; apply check_list_returns|apply Hret].
    + destruct (negb _); [|apply Hret].
      destruct (Details_at Details WHITE_ELO_TAG).
      * apply Hbind; [intros g'; apply check_elo_returns|]. intros w.
        destruct (Details_at Details BLACK_ELO_TAG); [|apply Hret].
        destruct (negb w); [intros g'; apply check_elo_returns|apply Hret].
      * destruct (Details_at Details BLACK_ELO_TAG);
          [intros g'; apply check_elo_returns|apply Hret].
Qed.

(** C9. While the check-tags flag is unset, as it is as long as nothing has
    been registered, check_tag_details_not_ECO and check_ECO_tag return TRUE
    for every record and every tag count, without writing anything. *)
Theorem no_criteria_every_record_wanted
    (Details : list (option string)) (num_details : Z) (g : Globals) :
  check_tags (GlobalState g) = false ->
  check_tag_details_not_ECO Details num_details g = Returns true g /\
  check_ECO_tag Details g = Returns true g /\
  check_tags (GlobalState (globals_after (init_tag_lists g))) = false.
Proof.
  intros Hcheck.
  unfold check_tag_details_not_ECO, check_ECO_tag, bind, get_globals.
  by rewrite Hcheck.
Qed.

End Matchers.

(** * Further properties of lists.c *)

(** ** The tag codes *)

Section TagFacts.

Context {tags : TagCodes}.

Lemma predefined_tags_list :
  predefined_tags =
  [ANNOTATOR_TAG; BLACK_TAG; BLACK_ELO_TAG; DATE_TAG; ECO_TAG; EVENT_TAG;
   FEN_TAG; HASHCODE_TAG; RESULT_TAG; SETUP_TAG; SITE_TAG; TIME_CONTROL_TAG;
   WHITE_TAG; WHITE_ELO_TAG; PSEUDO_PLAYER_TAG; PSEUDO_ELO_TAG].
Proof. by destruct tags. Qed.

Lemma predefined_tag_range i tag :
  predefined_tags !! i = Some tag -> 0 <= tag < ORIGINAL_NUMBER_OF_TAGS.
Proof.
  intros Hi. pose proof predefined_tags_in_range as Hall.
  rewrite Forall_forall in Hall. apply Hall.
  by eapply list_elem_of_lookup_2.
Qed.

Lemma predefined_tags_differ i j x y :
  predefined_tags !! i = Some x -> predefined_tags !! j = Some y ->
  i <> j -> x <> y.
Proof.
  intros Hi Hj Hij ->. apply Hij.
  by eapply NoDup_lookup; [apply predefined_tags_distinct|..].
Qed.

End TagFacts.

(** [tag_in_range n]: the bounds of the predefined tag at position [n] of
    predefined_tags; [tags_differ m n]: the tags at positions [m] and [n]
    are different. *)
Ltac tag_in_range n :=
  apply (predefined_tag_range n); rewrite predefined_tags_list; reflexivity.
Ltac tags_differ m n :=
  apply (predefined_tags_differ m n);
  [rewrite predefined_tags_list; reflexivity
  |rewrite predefined_tags_list; reflexivity
  |discriminate].

(** ** The criterion registry *)

Section Registry.

Context {tags : TagCodes}.

Lemma add_to_taglist_result str array :
  exists allocated,
    add_to_taglist str array =
    (num_used_elements array,
     {| num_allocated_elements := allocated;
        tag_strings :=
          tag_strings array ++ [{| tag_string := str; operator := NONE |}] |}) /\
    num_allocated_elements array <= allocated /\
    (StringArray_ok array -> num_used_elements array + 1 <= allocated).
Proof.
  destruct list_space_positive as [Hinit Hmore].
  unfold add_to_taglist, StringArray_ok, num_used_elements.
  destruct array as [allocated items]; cbn [num_allocated_elements tag_strings].
  destruct (Z.eqb_spec allocated (Z.of_nat (List.length items))) as [Hfull|Hroom].
  - destruct (Z.eqb_spec allocated 0) as [Hzero|Hnonzero].
    + destruct items; [|cbn [List.length] in Hfull; lia].
      eexists. split; [reflexivity|].
      cbn [List.length num_allocated_elements tag_strings]. lia.
    + eexists. split; [reflexivity|].
      cbn [List.length num_allocated_elements tag_strings]. lia.
  - eexists. split; [reflexivity|].
    cbn [List.length num_allocated_elements tag_strings]. lia.
Qed.

(** X1. add_to_taglist appends the string as the last element, with the
    operator NONE, and returns the index of that element, which is the
    number of elements used before the call; the elements already there
    stay, the allocation never shrinks, and a list within its allocation
    is within it afterwards. *)
Theorem add_to_taglist_appends (str : string) (array : StringArray) :
  StringArray_ok array ->
  let '(ix, array') := add_to_taglist str array in
  ix = num_used_elements array /\
  tag_strings array' =
    (tag_strings array ++ [{| tag_string := str; operator := NONE |}])%list /\
  tag_strings array' !! Z.to_nat ix = Some {| tag_string := str; operator := NONE |} /\
  num_used_elements array' = num_used_elements array + 1 /\
  num_allocated_elements array <= num_allocated_elements array' /\
  StringArray_ok array'.
Proof.
  intros Hok. destruct (add_to_taglist_result str array) as (allocated & -> & Hgrow & Hfit).
  unfold StringArray_ok, num_used_elements in *. cbn [tag_strings num_allocated_elements].
  rewrite length_app. cbn [List.length].
  split; [done|]. split; [done|]. split.
  { rewrite Nat2Z.id. by rewrite lookup_app_r, Nat.sub_diag by lia. }
  split; [lia|]. split; [done|]. specialize (Hfit Hok). lia.
Qed.

Lemma TagLists_at_in_range g tag :
  0 <= tag < Z.of_nat (List.length (TagLists g)) ->
  TagLists g !! Z.to_nat tag = Some (TagLists_at g tag).
Proof.
  intros Htag. unfold TagLists_at. replace (tag <? 0) with false by lia.
  destruct (TagLists g !! Z.to_nat tag) eqn:Hlookup; [done|].
  apply lookup_ge_None in Hlookup. lia.
Qed.

Lemma ensure_room tag g :
  (if tag >=? tag_list_length g then extend_tag_list_length (tag + 1) else ret tt) g =
  Returns tt (room_for tag g).
Proof.
  unfold room_for. destruct (tag >=? tag_list_length g) eqn:Hfull; [|done].
  unfold extend_tag_list_length, bind, get_globals.
  by replace (tag + 1 <? tag_list_length g) with false by lia.
Qed.

Lemma room_for_registry_ok tag g :
  registry_ok g -> registry_ok (room_for tag g).
Proof.
  intros [Hlen Hall]. unfold room_for.
  destruct (Z.geb_spec tag (tag_list_length g)) as [Hfull|]; [|done].
  split; cbn [set_TagLists TagLists tag_list_length].
  - rewrite length_app, length_replicate. lia.
  - apply Forall_app. split; [done|]. apply Forall_replicate.
    unfold StringArray_ok, num_used_elements. cbn. lia.
Qed.

Lemma room_for_TagLists_at tag g other :
  TagLists_at (room_for tag g) other = TagLists_at g other.
Proof.
  unfold room_for. destruct (tag >=? tag_list_length g); [|done].
  unfold TagLists_at. cbn [set_TagLists TagLists].
  destruct (other <? 0); [done|].
  destruct (TagLists g !! Z.to_nat other) eqn:Hlookup.
  - by rewrite (lookup_app_l_Some _ _ _ _ Hlookup).
  - rewrite lookup_app_r by (by apply lookup_ge_None).
    destruct (replicate _ _ !! _) eqn:Hnew; [|done].
    by apply lookup_replicate in Hnew as [-> _].
Qed.

Lemma room_for_length tag g :
  0 <= tag_list_length g ->
  tag_list_length (room_for tag g) = Z.max (tag_list_length g) (tag + 1).
Proof.
  intros Hlen. unfold room_for.
  destruct (Z.geb_spec tag (tag_list_length g)); cbn [set_TagLists tag_list_length]; lia.
Qed.

Lemma registry_ok_length g : registry_ok g -> 0 <= tag_list_length g.
Proof. intros [<- _]. lia. Qed.

Lemma add_tag_to_list_valid_tag
    (tag : Z) (tagstr : string) (op : TagOperator) (g : Globals) :
  registry_ok g -> 0 <= tag -> tag <> FEN_TAG ->
  exists g',
    add_tag_to_list tag tagstr op g = Returns tt g' /\
    tag_strings (TagLists_at g' tag) =
      (tag_strings (TagLists_at g tag) ++
       [{| tag_string := string_to_store g tag tagstr; operator := op |}])%list /\
    (forall other, other <> tag -> TagLists_at g' other = TagLists_at g other) /\
    tag_list_length g' = Z.max (tag_list_length g) (tag + 1) /\
    GlobalState g' = set_check_tags true (GlobalState g) /\
    fen_pattern_matches g' = fen_pattern_matches g /\
    registry_ok g'.
Proof.
  intros Hok Htag Hfen.
  pose proof (room_for_registry_ok tag g Hok) as [Hlen1 Hall1].
  pose proof (room_for_length tag g (registry_ok_length g Hok)) as Hmax.
  pose proof (room_for_TagLists_at tag g) as Hsame.
  assert (GlobalState (room_for tag g) = GlobalState g) as Hstate
    by (unfold room_for; by destruct (tag >=? _)).
  assert (fen_pattern_matches (room_for tag g) = fen_pattern_matches g) as Hfens
    by (unfold room_for; by destruct (tag >=? _)).
  unfold add_tag_to_list, bind at 1, get_globals. unfold bind at 1.
  rewrite ensure_room. set (g1 := room_for tag g) in *.
  replace (tag =? FEN_TAG) with false by lia.
  unfold bind, get_globals.
  replace (tag >=? 0) with true by lia.
  assert (tag < tag_list_length g1) as Hlt by (rewrite Hmax; lia).
  rewrite (proj2 (Z.ltb_lt _ _) Hlt). cbn [andb].
  fold (string_to_store g1 tag tagstr).
  destruct (add_to_taglist_result (string_to_store g1 tag tagstr) (TagLists_at g1 tag))
    as (allocated & -> & Hgrow & Hfit).
  replace (num_used_elements (TagLists_at g1 tag) >=? 0) with true
    by (unfold num_used_elements; symmetry; rewrite Z.geb_leb;
        apply Z.leb_le, Nat2Z.is_nonneg).
  cbn [num_allocated_elements tag_strings]. unfold put_globals. eexists. split; [done|].
  assert (0 <= tag < Z.of_nat (List.length (TagLists g1))) as Hin by lia.
  assert (forall other,
    TagLists_at
      (with_GlobalState (set_check_tags true)
         (set_TagLists (<[Z.to_nat tag := {| num_allocated_elements := allocated;
              tag_strings := alter (set_operator op)
                (Z.to_nat (num_used_elements (TagLists_at g1 tag)))
                (tag_strings (TagLists_at g1 tag) ++
                 [{| tag_string := string_to_store g1 tag tagstr;
                     operator := NONE |}])%list |}]>
            (TagLists g1)) (tag_list_length g1) g1)) other =
    if decide (other = tag)
    then {| num_allocated_elements := allocated;
            tag_strings := (tag_strings (TagLists_at g1 tag) ++
              [{| tag_string := string_to_store g1 tag tagstr; operator := op |}])%list |}
    else TagLists_at g1 other) as Hat.
  { intros other. unfold TagLists_at at 1.
    cbn [with_GlobalState set_TagLists TagLists].
    destruct (decide (other = tag)) as [->|Hother].
    - replace (tag <? 0) with false by lia.
      rewrite list_lookup_insert_eq by lia. cbn [default]. f_equal.
      unfold num_used_elements. rewrite Nat2Z.id.
      rewrite <- (Nat.add_0_r (List.length _)). by rewrite alter_app_r.
    - unfold TagLists_at. destruct (Z.ltb_spec other 0); [done|].
      rewrite list_lookup_insert_ne; [done|]. lia. }
  split. { rewrite Hat, decide_True by done. cbn [tag_strings].
           rewrite Hsame. unfold string_to_store. by rewrite Hstate. }
  split. { intros other Hother. rewrite Hat, decide_False by done. apply Hsame. }
  split; [done|]. split. { cbn. by rewrite Hstate. }
  split; [done|].
  split; cbn [with_GlobalState set_TagLists TagLists tag_list_length].
  - by rewrite length_insert.
  - apply Forall_insert; [done|].
    unfold StringArray_ok, num_used_elements. cbn [tag_strings num_allocated_elements].
    rewrite length_alter, length_app. cbn [List.length].
    assert (StringArray_ok (TagLists_at g1 tag)) as Hold.
    { rewrite Forall_forall in Hall1. apply Hall1.
      eapply list_elem_of_lookup_2. by apply TagLists_at_in_range. }
    specialize (Hfit Hold). unfold num_used_elements in Hfit. lia.
Qed.

(** X2. For a tag that is not negative and is not the FEN tag,
    add_tag_to_list returns, and afterwards the list of that tag is the list
    it had with one criterion appended: the pattern (its soundex code where
    soundex matching applies) with the operator given. The lists of all
    other tags are as before, GlobalState.check_tags is set, tag_list_length
    is the larger of its old value and tag + 1, nothing is logged, and the
    registry keeps its shape. *)
Theorem add_tag_to_list_stores
    (tag : Z) (tagstr : string) (op : TagOperator) (g : Globals) :
  registry_ok g -> 0 <= tag -> tag <> FEN_TAG ->
  exists g',
    add_tag_to_list tag tagstr op g = Returns tt g' /\
    tag_strings (TagLists_at g' tag) =
      (tag_strings (TagLists_at g tag) ++
       [{| tag_string := string_to_store g tag tagstr; operator := op |}])%list /\
    (forall other, other <> tag -> TagLists_at g' other = TagLists_at g other) /\
    tag_list_length g' = Z.max (tag_list_length g) (tag + 1) /\
    GlobalState g' = set_check_tags true (GlobalState g) /\
    fen_pattern_matches g' = fen_pattern_matches g /\
    registry_ok g'.
Proof. apply add_tag_to_list_valid_tag. Qed.

Lemma FEN_TAG_range : 0 <= FEN_TAG < ORIGINAL_NUMBER_OF_TAGS.
Proof. tag_in_range 6%nat. Qed.

Lemma add_tag_to_list_negative tag tagstr op g :
  0 <= tag_list_length g -> tag < 0 ->
  add_tag_to_list tag tagstr op g =
  Returns tt
    (logged ["Illegal tag number " ++ decimal tag ++ " in add_tag_to_list." ++ newline] g).
Proof.
  intros Hlen Htag. pose proof FEN_TAG_range.
  unfold add_tag_to_list, bind at 1, get_globals. unfold bind at 1.
  rewrite ensure_room. unfold room_for.
  replace (tag >=? tag_list_length g) with false by lia.
  replace (tag =? FEN_TAG) with false by lia.
  unfold bind, get_globals. by replace (tag >=? 0) with false by lia.
Qed.

Lemma add_tag_to_list_FEN tagstr op g :
  add_tag_to_list FEN_TAG tagstr op g =
  add_fen_pattern_match tagstr (room_for FEN_TAG g).
Proof.
  unfold add_tag_to_list, bind at 1, get_globals. unfold bind at 1.
  rewrite ensure_room. by rewrite Z.eqb_refl.
Qed.

(** X3. A negative tag is refused: add_tag_to_list writes its
    illegal-tag-number message and returns, and nothing else changes, no
    list and not GlobalState.check_tags. *)
Theorem add_tag_to_list_refuses_negative_tag
    (tag : Z) (tagstr : string) (op : TagOperator) (g : Globals) :
  0 <= tag_list_length g -> tag < 0 ->
  add_tag_to_list tag tagstr op g =
  Returns tt
    (logged ["Illegal tag number " ++ decimal tag ++ " in add_tag_to_list." ++ newline] g).
Proof. apply add_tag_to_list_negative. Qed.

(** X4. A pattern for the FEN tag goes to add_fen_pattern_match and to no
    list: after add_tag_to_list the pattern, unencoded, is the last one
    handed over, every list of the registry is as before, and GlobalState,
    with check_tags and the log, is untouched; the operator plays no part. *)
Theorem add_tag_to_list_forwards_FEN
    (tagstr : string) (op : TagOperator) (g : Globals) :
  exists g',
    add_tag_to_list FEN_TAG tagstr op g = Returns tt g' /\
    fen_pattern_matches g' = (fen_pattern_matches g ++ [tagstr])%list /\
    GlobalState g' = GlobalState g /\
    (forall tag, TagLists_at g' tag = TagLists_at g tag) /\
    (registry_ok g -> registry_ok g').
Proof.
  rewrite add_tag_to_list_FEN. unfold add_fen_pattern_match. eexists.
  split; [done|]. cbn [fen_pattern_matches GlobalState].
  split; [unfold room_for; by destruct (_ >=? _)|].
  split; [unfold room_for; by destruct (_ >=? _)|].
  split.
  - intros tag. rewrite <- (room_for_TagLists_at FEN_TAG g tag). done.
  - intros Hok. by apply (room_for_registry_ok FEN_TAG) in Hok.
Qed.

Lemma add_tag_to_list_keeps_registry tag tagstr op g :
  registry_ok g ->
  exists g',
    add_tag_to_list tag tagstr op g = Returns tt g' /\
    registry_ok g' /\
    tag_list_length g <= tag_list_length g' /\
    (check_tags (GlobalState g) = true -> check_tags (GlobalState g') = true).
Proof.
  intros Hok. pose proof (registry_ok_length g Hok) as Hlen.
  destruct (decide (tag = FEN_TAG)) as [->|Hfen].
  - rewrite add_tag_to_list_FEN. unfold add_fen_pattern_match. eexists.
    split; [done|]. pose proof (room_for_registry_ok FEN_TAG g Hok) as Hroom.
    pose proof (room_for_length FEN_TAG g Hlen).
    split; [exact Hroom|]. cbn [tag_list_length GlobalState]. split; [lia|].
    unfold room_for. by destruct (_ >=? _).
  - destruct (Z.lt_ge_cases tag 0) as [Hneg|Hpos].
    + rewrite add_tag_to_list_negative by done. eexists. split; [done|].
      split; [exact Hok|]. by split.
    + destruct (add_tag_to_list_valid_tag tag tagstr op g Hok Hpos Hfen)
        as (g' & -> & _ & _ & Hmax & Hstate & _ & Hok').
      exists g'. split; [done|]. split; [done|]. split; [lia|].
      by rewrite Hstate.
Qed.

Lemma add_tags_to_lists_keep_registry criteria : forall g,
  registry_ok g ->
  exists g',
    add_tags_to_lists criteria g = Returns tt g' /\
    registry_ok g' /\
    tag_list_length g <= tag_list_length g' /\
    (check_tags (GlobalState g) = true -> check_tags (GlobalState g') = true).
Proof.
  induction criteria as [|[[tag tagstr] op] criteria IH]; intros g Hok.
  - exists g. split; [done|]. split; [done|]. split; [lia|done].
  - cbn [add_tags_to_lists]. unfold bind.
    destruct (add_tag_to_list_keeps_registry tag tagstr op g Hok)
      as (g1 & -> & Hok1 & Hlen1 & Hflag1).
    destruct (IH g1 Hok1) as (g' & -> & Hok' & Hlen' & Hflag').
    exists g'. split; [done|]. split; [done|]. split; [lia|]. auto.
Qed.

Lemma init_tag_lists_registry g :
  exists g',
    init_tag_lists g = Returns tt g' /\
    registry_ok g' /\
    tag_list_length g' = ORIGINAL_NUMBER_OF_TAGS /\
    GlobalState g' = GlobalState g /\
    (forall tag, tag_strings (TagLists_at g' tag) = []).
Proof.
  pose proof FEN_TAG_range.
  unfold init_tag_lists, bind, get_globals, put_globals. eexists. split; [done|].
  split; [split|]; cbn [set_TagLists TagLists tag_list_length GlobalState].
  - rewrite length_replicate. lia.
  - apply Forall_replicate. unfold StringArray_ok, num_used_elements. by cbn.
  - split; [done|]. split; [done|]. intros tag. unfold TagLists_at.
    cbn [set_TagLists TagLists]. destruct (tag <? 0); [done|].
    destruct (replicate _ _ !! _) eqn:Hlookup; [|done].
    by apply lookup_replicate in Hlookup as [-> _].
Qed.

(** X5. Configuration keeps the registry in shape and, as long as memory
    can be allocated, never ends the process: from any state, init_tag_lists
    followed by add_tag_to_list for any sequence of tags, patterns and
    operators (negative tags, new tags and the FEN tag included) returns,
    with TagLists holding exactly tag_list_length lists, each within its
    allocation, and tag_list_length at least ORIGINAL_NUMBER_OF_TAGS. The
    exit of extend_tag_list_length is never reached from add_tag_to_list. *)
Theorem configuration_keeps_registry
    (criteria : list (Z * string * TagOperator)) (g0 : Globals) :
  exists g,
    (let* _ := init_tag_lists in add_tags_to_lists criteria) g0 = Returns tt g /\
    registry_ok g /\
    ORIGINAL_NUMBER_OF_TAGS <= tag_list_length g.
Proof.
  unfold bind.
  destruct (init_tag_lists_registry g0) as (g1 & -> & Hok1 & Hlen1 & _).
  destruct (add_tags_to_lists_keep_registry criteria g1 Hok1)
    as (g & -> & Hok & Hlen & _).
  exists g. split; [done|]. split; [done|]. lia.
Qed.

(** X6. extend_tag_list_length ends the process, with exit status 1 and its
    two messages, exactly when the new length is below tag_list_length. A
    new length equal to tag_list_length or above it is accepted: every list
    already there is kept, the lists added are empty, and tag_list_length
    becomes the new length. *)
Theorem extend_tag_list_length_never_shrinks (new_length : Z) (g : Globals) :
  (new_length < tag_list_length g ->
   extend_tag_list_length new_length g =
   Exits 1
     (logged
        ["Internal error: inappropriate call to extend_tag_list_length()." ++ newline;
         "New length of " ++ decimal new_length ++
         " is not greater than existing length of " ++
         decimal (tag_list_length g) ++ newline] g)) /\
  (tag_list_length g <= new_length ->
   exists g',
     extend_tag_list_length new_length g = Returns tt g' /\
     tag_list_length g' = new_length /\
     GlobalState g' = GlobalState g /\
     (forall tag, TagLists_at g' tag = TagLists_at g tag) /\
     (registry_ok g -> registry_ok g')).
Proof.
  split; intros Hlen; unfold extend_tag_list_length, bind at 1, get_globals.
  - replace (new_length <? tag_list_length g) with true by lia.
    unfold bind, fprintf_logfile, exit. by rewrite logged_logged.
  - replace (new_length <? tag_list_length g) with false by lia.
    unfold put_globals. eexists. split; [done|].
    cbn [set_TagLists tag_list_length GlobalState]. split; [done|]. split; [done|].
    split.
    + intros tag. unfold TagLists_at. cbn [set_TagLists TagLists].
      destruct (tag <? 0); [done|].
      destruct (TagLists g !! Z.to_nat tag) eqn:Hlookup.
      * by rewrite (lookup_app_l_Some _ _ _ _ Hlookup).
      * rewrite lookup_app_r by (by apply lookup_ge_None).
        destruct (replicate _ _ !! _) eqn:Hnew; [|done].
        by apply lookup_replicate in Hnew as [-> _].
    + intros [Hsize Hall]. split; cbn [set_TagLists TagLists tag_list_length].
      * rewrite length_app, length_replicate. lia.
      * apply Forall_app. split; [done|]. apply Forall_replicate.
        unfold StringArray_ok, num_used_elements. by cbn.
Qed.

Lemma add_tag_to_list_returns tag tagstr op g :
  exists g', add_tag_to_list tag tagstr op g = Returns tt g'.
Proof.
  unfold add_tag_to_list, bind at 1, get_globals. unfold bind at 1.
  rewrite ensure_room.
  destruct (tag =? FEN_TAG); [by eexists|].
  unfold bind, get_globals. destruct (_ && _); [|by eexists].
  destruct (add_to_taglist _ _). by eexists.
Qed.

(** X7. extract_tag_argument ends the process exactly for an argument whose
    first character is none of the letters a b d e f h p r t w, the empty
    argument included: it then writes its unknown-type message with the
    whole argument and exits with status 1, leaving the registry alone. For
    each of the ten letters it returns. *)
Theorem extract_tag_argument_unknown_letter (argstr : string) (g : Globals) :
  (known_argument_letter (head_char argstr) = false ->
   extract_tag_argument argstr g =
   Exits 1
     (logged ["Unknown type of tag extraction argument: " ++ argstr ++ newline] g)) /\
  (known_argument_letter (head_char argstr) = true ->
   exists g', extract_tag_argument argstr g = Returns tt g').
Proof.
  unfold extract_tag_argument, known_argument_letter.
  destruct argstr as [|c arg]; cbn [head_char existsb].
  - split; [done|]. intros Hknown. by vm_compute in Hknown.
  - repeat (destruct (Ascii.eqb c _);
            [split; [done|]; intros _; apply add_tag_to_list_returns|]).
    by split.
Qed.

Lemma configured_registry_ok soundex_on anywhere criteria :
  registry_ok (configured soundex_on anywhere criteria).
Proof.
  unfold configured, bind.
  destruct (init_tag_lists_registry (startup soundex_on anywhere))
    as (g1 & -> & Hok1 & _).
  by destruct (add_tags_to_lists_keep_registry criteria g1 Hok1) as (g & -> & Hok & _).
Qed.

End Registry.

(** ** More on the soundex encoder *)

Lemma translate_digit c : 48 <= code (translate c) <= 54.
Proof. each_char c; by vm_compute. Qed.

Lemma normalised_letter c : (if islower c then toupper c else c) = toupper c.
Proof. unfold toupper. by destruct (islower c). Qed.

Lemma soundex_scan_symbols s : forall sindex lastc,
  all_chars soundex_symbol (soundex_scan s sindex lastc) = true /\
  no_adjacent_repeats (soundex_scan s sindex lastc) = true /\
  Ascii.eqb lastc (head_char (soundex_scan s sindex lastc)) = false \/
  soundex_scan s sindex lastc = "".
Proof.
  induction s as [|c s IH]; intros sindex lastc; cbn [soundex_scan]; [by right|].
  destruct (sindex <? MAXSOUNDEX)%nat; [|by right].
  destruct (isalpha c && _); [|apply IH].
  rewrite normalised_letter.
  destruct (negb (Ascii.eqb (translate (toupper c)) "0")) eqn:Hzero; [|apply IH].
  destruct (negb (Ascii.eqb (translate (toupper c)) lastc)) eqn:Hlast; [|apply IH].
  cbn [andb]. left. cbn [all_chars no_adjacent_repeats head_char].
  apply negb_true_iff in Hzero, Hlast.
  split; [|split].
  - apply andb_true_intro. split.
    + pose proof (translate_digit (toupper c)) as Hdigit.
      apply Ascii.eqb_neq in Hzero.
      assert (code (translate (toupper c)) <> 48) as Hne.
      { intros Hcode. apply Hzero.
        rewrite <- (ascii_N_embedding (translate (toupper c))).
        unfold code in Hcode. by replace (N_of_ascii (translate (toupper c))) with 48%N by lia. }
      unfold soundex_symbol. lia.
    + by destruct (IH (S sindex) (translate (toupper c))) as [(? & _)| ->].
  - destruct (IH (S sindex) (translate (toupper c))) as [(_ & Hrep & Hhead)| ->]; [|done].
    rewrite Hrep, andb_true_r.
    destruct (soundex_scan s (S sindex) (translate (toupper c))); [done|].
    cbn [head_char] in Hhead. by rewrite Hhead.
  - by rewrite Ascii.eqb_sym.
Qed.

(** X8. A soundex code consists of digits from 1 to 7 only, and no two
    neighbouring symbols of it are equal. *)
Theorem soundex_code_shape (s : string) :
  all_chars soundex_symbol (soundex s) = true /\
  no_adjacent_repeats (soundex s) = true.
Proof.
  destruct s as [|c s]; [done|]. unfold soundex.
  destruct (_ || _).
  - destruct (soundex_scan s 1 " ") as [|d rest] eqn:Hscan; [done|].
    destruct (soundex_scan_symbols s 1 " ") as [(Hall & Hrep & _)|Hempty];
      rewrite Hscan in *; [|done].
    split.
    + change (all_chars soundex_symbol (String "7" (String d rest)))
        with (all_chars soundex_symbol (String d rest)). exact Hall.
    + change (no_adjacent_repeats (String "7" (String d rest)))
        with (negb (Ascii.eqb "7" d) && no_adjacent_repeats (String d rest)).
      rewrite Hrep, andb_true_r.
      apply negb_true_iff, Ascii.eqb_neq. intros <-.
      (* the scan never emits 7: its symbols come from [mapping] *)
      clear -Hscan. revert Hscan. generalize 1%nat, " "%char.
      induction s as [|e s IH]; intros sindex lastc; cbn [soundex_scan]; [done|].
      destruct (sindex <? MAXSOUNDEX)%nat; [|done].
      destruct (isalpha e && _); [|apply IH].
      destruct (_ && _); [|apply IH].
      intros [= Hseven _].
      pose proof (translate_digit (if islower e then toupper e else e)) as Hdigit.
      rewrite Hseven in Hdigit. change (code "7") with 55 in Hdigit. lia.
  - by destruct (soundex_scan_symbols (String c s) 0 " ") as [(? & ? & _)| ->].
Qed.

Lemma soundex_scan_full s sindex lastc :
  (sindex <? MAXSOUNDEX)%nat = false -> soundex_scan s sindex lastc = "".
Proof. intros Hfull. destruct s; cbn [soundex_scan]; by rewrite ?Hfull. Qed.

Lemma soundex_scan_sounded s : forall sindex lastc,
  isalpha lastc = false ->
  soundex_scan (filter_chars sounded s) sindex lastc = soundex_scan s sindex lastc.
Proof.
  induction s as [|c s IH]; intros sindex lastc Hlast; [done|].
  cbn [filter_chars]. unfold sounded at 1.
  destruct (isalpha c) eqn:Halpha; cbn [andb].
  - destruct (negb (Ascii.eqb (translate (toupper c)) "0")) eqn:Hzero.
    + cbn [soundex_scan]. destruct (sindex <? MAXSOUNDEX)%nat; [|done].
      rewrite Halpha, normalised_letter, Hzero. cbn [andb].
      destruct (negb (Ascii.eqb c lastc)); cbn [andb]; [|by apply IH].
      destruct (negb (Ascii.eqb (translate (toupper c)) lastc)); [|by apply IH].
      f_equal. apply IH, translate_not_alpha.
    + rewrite IH by done. cbn [soundex_scan].
      destruct (sindex <? MAXSOUNDEX)%nat eqn:Hfull.
      * rewrite Halpha, normalised_letter, Hzero. cbn [andb].
        by destruct (negb (Ascii.eqb c lastc)).
      * (* the output is full: nothing is emitted either way *)
        by apply soundex_scan_full.
  - rewrite IH by done. cbn [soundex_scan]. rewrite Halpha. cbn [andb].
    destruct (sindex <? MAXSOUNDEX)%nat eqn:Hfull; [done|].
    by apply soundex_scan_full.
Qed.

(** X9. After the first character of a name, the characters that are not
    letters and the letters whose mapping entry is 0 (A, E, H, I, J, O, U,
    Y in either case) have no influence on the code: deleting all of them
    leaves the code unchanged. In particular they do not keep two equal
    digits apart. *)
Theorem soundex_skips_unsounded (c : ascii) (s : string) :
  soundex (String c s) = soundex (String c (filter_chars sounded s)).
Proof.
  unfold soundex. destruct (_ || _).
  - f_equal. symmetry. by apply soundex_scan_sounded.
  - cbn [soundex_scan]. destruct (0 <? MAXSOUNDEX)%nat; [|done].
    destruct (isalpha c && _); [|symmetry; by apply soundex_scan_sounded].
    destruct (_ && _); [|symmetry; by apply soundex_scan_sounded].
    f_equal. symmetry. apply soundex_scan_sounded, translate_not_alpha.
Qed.

(** ** More on the generic matcher *)

Lemma starts_with_strstr s p : starts_with s p = true -> strstr s p = true.
Proof. intros H. destruct s; cbn [strstr]; by rewrite H. Qed.

Section GenericMatcher.

Context {libc : Libc} {tags : TagCodes}.

Lemma check_list_plain_verdict
    (tag : Z) (tag_str : string) (array : StringArray) (g : Globals) :
  Forall (fun sel => operator sel = NONE) (tag_strings array) ->
  check_list tag tag_str array g =
  Returns
    (existsb (fun sel =>
                plain_test (tag_match_anywhere (GlobalState g))
                  (search_string g tag tag_str) (tag_string sel))
       (tag_strings array)) g.
Proof.
  intros Hplain. rewrite check_list_unfold. cbv zeta.
  destruct (existsb _ (tag_strings array)) eqn:Hfound.
  - by rewrite plain_pass_wanted, Hfound.
  - rewrite plain_pass_without_match by done.
    cbn [wanted_after_plain possible_range_check possible_regex_check orb].
    replace (existsb (fun sel => negb (is_NONE (operator sel))) (tag_strings array))
      with false.
    2:{ symmetry. apply not_true_is_false. intros Hex.
        apply existsb_exists in Hex as (sel & Hin & Hop).
        rewrite Forall_forall in Hplain. apply list_elem_of_In in Hin.
        by rewrite (Hplain sel Hin) in Hop. }
    replace (existsb (fun sel => is_REGEX (operator sel)) (tag_strings array))
      with false.
    2:{ symmetry. apply not_true_is_false. intros Hex.
        apply existsb_exists in Hex as (sel & Hin & Hop).
        rewrite Forall_forall in Hplain. apply list_elem_of_In in Hin.
        by rewrite (Hplain sel Hin) in Hop. }
    by rewrite andb_false_r.
Qed.

(** X10. For a list whose criteria all have the operator NONE, check_list is
    the OR of the text tests: it returns TRUE exactly when the pattern of
    some criterion is a prefix of the search string (occurs in it, in the
    anywhere mode), and it writes nothing. An empty list gives FALSE. *)
Theorem check_list_without_operators
    (tag : Z) (tag_str : string) (array : StringArray) (g : Globals) :
  Forall (fun sel => operator sel = NONE) (tag_strings array) ->
  check_list tag tag_str array g =
  Returns
    (existsb (fun sel =>
                plain_test (tag_match_anywhere (GlobalState g))
                  (search_string g tag tag_str) (tag_string sel))
       (tag_strings array)) g.
Proof. apply check_list_plain_verdict. Qed.

Lemma regex_pass_exists search_str items :
  regex_pass search_str items false = existsb (regex_matches search_str) items.
Proof.
  assert (forall items, regex_pass search_str items true = true) as Htrue
    by (by intros []).
  induction items as [|sel items IH]; [done|].
  cbn [regex_pass existsb]. unfold regex_matches at 1.
  destruct (is_REGEX (operator sel)); cbn [andb]; [|exact IH].
  destruct (regcomp (tag_string sel)) as [regex|]; [|exact IH].
  destruct (regexec regex search_str); [apply Htrue|exact IH].
Qed.

(** X11. For a search string that is not of numeric shape and a list none of
    whose patterns passes the text test, check_list is the OR of the regular
    expressions: it returns TRUE exactly when some criterion with the REGEX
    operator has a pattern that compiles and is found in the search string.
    A pattern that does not compile is passed over, criteria with other
    operators play no part, and nothing is logged. *)
Theorem check_list_regular_expressions
    (tag : Z) (tag_str : string) (array : StringArray) (g : Globals) :
  let search_str := search_string g tag tag_str in
  tag_string_is_numeric search_str = false ->
  existsb (fun sel =>
             plain_test (tag_match_anywhere (GlobalState g)) search_str
               (tag_string sel)) (tag_strings array) = false ->
  check_list tag tag_str array g =
  Returns (existsb (regex_matches search_str) (tag_strings array)) g.
Proof.
  intros search_str Hshape Hnone. rewrite check_list_unfold. fold search_str. cbv zeta.
  rewrite plain_pass_without_match by done.
  cbn [wanted_after_plain possible_range_check possible_regex_check orb negb andb].
  rewrite Hshape. cbn [andb].
  destruct (existsb (fun sel => is_REGEX (operator sel)) (tag_strings array)) eqn:Hregex.
  - by rewrite regex_pass_exists.
  - f_equal. symmetry. apply not_true_is_false. intros Hex.
    apply existsb_exists in Hex as (sel & Hin & Hmatch).
    unfold regex_matches in Hmatch. apply andb_prop in Hmatch as [Hop _].
    assert (existsb (fun sel => is_REGEX (operator sel)) (tag_strings array) = true)
      by (apply existsb_exists; eauto).
    congruence.
Qed.

Lemma relative_numeric_match_relational op lhs rhs g :
  relational op = true ->
  relative_numeric_match op lhs rhs g = Returns (double_relation op lhs rhs) g.
Proof. by destruct op. Qed.

Lemma range_pass_false search_str items g :
  range_pass search_str items false g = Returns false g.
Proof. by destruct items. Qed.

Lemma range_pass_relational search_str items : forall g,
  Forall (fun sel => relational (operator sel) = true) items ->
  range_pass search_str items true g =
  Returns (forallb (range_criterion_holds search_str) items) g.
Proof.
  induction items as [|sel items IH]; intros g Hall; [done|].
  apply Forall_cons in Hall as [Hsel Hall].
  cbn [range_pass forallb]. unfold bind.
  assert (range_step search_str sel true g =
          Returns (range_criterion_holds search_str sel) g) as ->.
  { unfold range_step, range_criterion_holds.
    destruct (operator sel) eqn:Hop; try done;
      destruct (sscanf_lf search_str), (sscanf_lf (tag_string sel)); done. }
  destruct (range_criterion_holds search_str sel); cbn [andb].
  - by apply IH.
  - apply range_pass_false.
Qed.

(** X12. For a search string of numeric shape, a non-empty list whose
    criteria all have one of the six relational operators, and no pattern
    that passes the text test, check_list is the AND of the comparisons:
    it returns TRUE exactly when every criterion holds, where a criterion
    also holds when the search string or its pattern does not convert
    under %lf. Nothing is logged. *)
Theorem check_list_relational_conjunction
    (tag : Z) (tag_str : string) (array : StringArray) (g : Globals) :
  let search_str := search_string g tag tag_str in
  tag_string_is_numeric search_str = true ->
  tag_strings array <> [] ->
  Forall (fun sel => relational (operator sel) = true) (tag_strings array) ->
  existsb (fun sel =>
             plain_test (tag_match_anywhere (GlobalState g)) search_str
               (tag_string sel)) (tag_strings array) = false ->
  check_list tag tag_str array g =
  Returns (forallb (range_criterion_holds search_str) (tag_strings array)) g.
Proof.
  intros search_str Hshape Hnonempty Hall Hnone.
  rewrite check_list_unfold. fold search_str. cbv zeta.
  rewrite plain_pass_without_match by done.
  cbn [wanted_after_plain possible_range_check possible_regex_check orb].
  rewrite Hshape. cbn [andb].
  replace (existsb (fun sel => negb (is_NONE (operator sel))) (tag_strings array))
    with true.
  2:{ destruct (tag_strings array) as [|sel items]; [done|].
      apply Forall_cons in Hall as [Hsel _]. cbn [existsb].
      apply andb_prop in Hsel as [-> _]. done. }
  replace (existsb (fun sel => is_REGEX (operator sel)) (tag_strings array))
    with false.
  2:{ symmetry. apply not_true_is_false. intros Hex.
      apply existsb_exists in Hex as (sel & Hin & Hop).
      rewrite Forall_forall in Hall. apply list_elem_of_In in Hin.
      specialize (Hall sel Hin). apply andb_prop in Hall as [_ Hre].
      by rewrite Hop in Hre. }
  rewrite range_pass_relational by done. by rewrite andb_false_r.
Qed.

Lemma relative_numeric_match_uniform op lhs rhs :
  exists verdict msgs,
    forall g, relative_numeric_match op lhs rhs g = Returns verdict (logged msgs g).
Proof.
  destruct op; cbn [relative_numeric_match]; unfold bind, fprintf_logfile, ret;
    try (eexists _, []; intros g; by rewrite logged_nil); by eexists _, [_].
Qed.

Lemma range_step_uniform search_str selection wanted :
  exists verdict msgs,
    forall g, range_step search_str selection wanted g = Returns verdict (logged msgs g).
Proof.
  unfold range_step.
  destruct (operator selection);
    try (unfold bind, fprintf_logfile, ret; by eexists _, [_]);
    try (exists wanted, []; intros g; by rewrite logged_nil);
    (destruct (sscanf_lf search_str);
       [|exists wanted, []; intros g; by rewrite logged_nil]);
    (destruct (sscanf_lf (tag_string selection));
       [|exists wanted, []; intros g; by rewrite logged_nil]);
    apply relative_numeric_match_uniform.
Qed.

Lemma range_pass_uniform search_str items : forall wanted,
  exists verdict msgs,
    forall g, range_pass search_str items wanted g = Returns verdict (logged msgs g).
Proof.
  induction items as [|selection items IH]; intros wanted; cbn [range_pass].
  - exists wanted, []. intros g. by rewrite logged_nil.
  - destruct wanted; [|exists false, []; intros g; by rewrite logged_nil].
    destruct (range_step_uniform search_str selection true) as (v & msgs & Hstep).
    destruct (IH v) as (v' & msgs' & Hrest).
    exists v', (msgs ++ msgs')%list. intros g. unfold bind.
    by rewrite Hstep, Hrest, logged_logged.
Qed.

(** X13. Matching anywhere accepts whatever prefix matching accepts: if
    check_list returns TRUE for a tag value and a list with
    GlobalState.tag_match_anywhere unset, it returns TRUE for the same value
    and list with the option set, everything else being equal. *)
Theorem anywhere_accepts_what_prefix_accepts
    (tag : Z) (tag_str : string) (array : StringArray) (g : Globals) :
  (exists g', check_list tag tag_str array (set_tag_match_anywhere false g) =
              Returns true g') ->
  exists g', check_list tag tag_str array (set_tag_match_anywhere true g) =
             Returns true g'.
Proof.
  rewrite !check_list_unfold. cbv zeta.
  change (search_string (set_tag_match_anywhere false g) tag tag_str)
    with (search_string g tag tag_str).
  change (search_string (set_tag_match_anywhere true g) tag tag_str)
    with (search_string g tag tag_str).
  change (tag_match_anywhere (GlobalState (set_tag_match_anywhere false g))) with false.
  change (tag_match_anywhere (GlobalState (set_tag_match_anywhere true g))) with true.
  set (search_str := search_string g tag tag_str).
  set (items := tag_strings array).
  destruct (existsb (fun sel => plain_test true search_str (tag_string sel)) items)
    eqn:Hanywhere.
  { intros _. rewrite plain_pass_wanted, Hanywhere by done. by eexists. }
  assert (existsb (fun sel => plain_test false search_str (tag_string sel)) items = false)
    as Hprefix.
  { apply not_true_is_false. intros Hex.
    apply existsb_exists in Hex as (sel & Hin & Htest).
    assert (existsb (fun sel => plain_test true search_str (tag_string sel)) items = true)
      by (apply existsb_exists; exists sel; split; [done|];
          by apply starts_with_strstr).
    congruence. }
  rewrite !plain_pass_without_match by done.
  cbn [wanted_after_plain possible_range_check possible_regex_check orb].
  destruct (range_pass_uniform search_str items true) as (v & msgs & Hrange).
  rewrite !Hrange.
  destruct (_ && existsb _ items).
  - destruct (negb v && _); intros [g' [= -> _]]; by eexists.
  - destruct (negb false && _); intros [g' [= Hv _]]; rewrite ?Hv; by eexists.
Qed.

End GenericMatcher.

(** ** More on dates and ratings *)

Lemma existsb_Permutation {A} (f : A -> bool) (l l' : list A) :
  l ≡ₚ l' -> existsb f l = existsb f l'.
Proof.
  intros Hperm. induction Hperm as [|x l l' _ IH|x y l|l l' l'' _ IH1 _ IH2]; cbn [existsb].
  - done.
  - by rewrite IH.
  - by destruct (f x), (f y).
  - by rewrite IH1.
Qed.

Section DatesAndRatings.

Context {libc : Libc} {tags : TagCodes}.

Lemma check_date_loop_plain date_string game_year encoded items :
  Forall (fun sel => date_selection sel = (NONE, tag_string sel)) items ->
  forall list_index wanted g,
  (list_index = 0%nat -> wanted = false) ->
  check_date_loop date_string game_year encoded list_index items wanted g =
  Returns
    (wanted || existsb (fun sel => starts_with date_string (tag_string sel)) items) g.
Proof.
  induction 1 as [|sel items Hsel _ IH]; intros list_index wanted g Hfirst;
    cbn [check_date_loop existsb].
  - unfold ret. by rewrite orb_false_r.
  - unfold bind, check_date_step. rewrite Hsel. cbn [is_NONE negb].
    destruct list_index as [|list_index]; cbn [Nat.eqb orb].
    + rewrite (Hfirst eq_refl). cbn [orb]. unfold ret. rewrite IH; [done|lia].
    + destruct wanted; cbn [negb orb]; unfold ret; (rewrite IH; [done|lia]).
Qed.

(** X14. For criteria without operator whose patterns do not start with a
    or b, check_date is the OR of prefix tests: if the game's date starts
    with an integer, it returns TRUE exactly when some pattern is a prefix of
    the date; if the date starts with no integer, it returns FALSE whatever
    the patterns are. Nothing is logged. *)
Theorem check_date_without_operators
    (date_string : string) (array : StringArray) (g : Globals) :
  Forall (fun sel => date_selection sel = (NONE, tag_string sel)) (tag_strings array) ->
  check_date date_string array g =
  Returns
    (match sscanf_u date_string with
     | Some _ =>
         existsb (fun sel => starts_with date_string (tag_string sel))
           (tag_strings array)
     | None => false
     end) g.
Proof.
  intros Hplain. unfold check_date.
  destruct (sscanf_u date_string) as [game_year|]; [|done].
  destruct (sscanf_month_day date_string 1 1) as [game_month game_day].
  by rewrite check_date_loop_plain.
Qed.

(** X15. A game whose year is not strictly between 100 and 3000 satisfies no
    relational date criterion: whenever the last criterion of the list is
    relational (by its operator or by a leading a or b), check_date returns
    FALSE for such a game, whatever the criteria before it say. *)
Theorem check_date_year_out_of_range
    (date_string : string) (game_year : Z) (allocated : Z)
    (items : list TagSelection) (sel : TagSelection) (g : Globals) :
  sscanf_u date_string = Some game_year ->
  game_year <= MINDATE \/ MAXDATE <= game_year ->
  fst (date_selection sel) <> NONE ->
  exists msgs,
    check_date date_string
      {| num_allocated_elements := allocated; tag_strings := items ++ [sel] |} g =
    Returns false (logged msgs g).
Proof.
  intros Hyear Hrange Hop.
  destruct (check_date_snoc date_string allocated items sel g Hop)
    as (verdict & msgs & msgs' & _ & ->).
  assert (date_relation_holds date_string sel = false) as ->.
  { unfold date_relation_holds. destruct (date_selection sel) as [op pattern].
    rewrite Hyear. destruct (date_magnitude date_string); [|done].
    destruct (date_magnitude pattern); [|done].
    replace ((MINDATE <? game_year) && (game_year <? MAXDATE)) with false; [done|].
    symmetry. apply andb_false_iff. lia. }
  exists msgs'. destruct items; [done|]. by rewrite andb_false_r.
Qed.

(** X16. The magnitudes check_date compares are in calendar order: for years
    below 429496 and months and days below 100, one encoded date is below
    another exactly when its (year, month, day) comes first, and two encoded
    dates are equal exactly when year, month and day are. *)
Theorem encoded_date_value_order (y1 m1 d1 y2 m2 d2 : Z) :
  0 <= y1 < 429496 -> 0 <= m1 < 100 -> 0 <= d1 < 100 ->
  0 <= y2 < 429496 -> 0 <= m2 < 100 -> 0 <= d2 < 100 ->
  (encoded_date_value y1 m1 d1 < encoded_date_value y2 m2 d2 <->
   y1 < y2 \/ (y1 = y2 /\ (m1 < m2 \/ (m1 = m2 /\ d1 < d2)))) /\
  (encoded_date_value y1 m1 d1 = encoded_date_value y2 m2 d2 <->
   y1 = y2 /\ m1 = m2 /\ d1 = d2).
Proof.
  intros. unfold encoded_date_value, to_unsigned.
  rewrite !Z.mod_small by lia. lia.
Qed.

(** X17. The order of the criteria does not matter to check_elo and
    check_time_period: two lists with the same criteria in a different
    order give the same verdict. *)
Theorem rating_criteria_order_irrelevant
    (candidate : string) (period : Z) (allocated : Z)
    (items items' : list TagSelection) (g : Globals) :
  items ≡ₚ items' ->
  0 <= period < 2 ^ 32 ->
  (exists verdict msgs msgs',
     check_elo candidate
       {| num_allocated_elements := allocated; tag_strings := items |} g =
     Returns verdict (logged msgs g) /\
     check_elo candidate
       {| num_allocated_elements := allocated; tag_strings := items' |} g =
     Returns verdict (logged msgs' g)) /\
  (exists verdict msgs msgs',
     check_time_period candidate period
       {| num_allocated_elements := allocated; tag_strings := items |} g =
     Returns verdict (logged msgs g) /\
     check_time_period candidate period
       {| num_allocated_elements := allocated; tag_strings := items' |} g =
     Returns verdict (logged msgs' g)).
Proof.
  intros Hperm Hperiod. split.
  - unfold check_elo. cbn [tag_strings].
    destruct (sscanf_u candidate) as [game_elo|] eqn:Helo.
    + pose proof (sscanf_u_range _ _ Helo) as Hrange.
      destruct (check_elo_loop_value candidate game_elo items g Hrange) as [msgs ->].
      destruct (check_elo_loop_value candidate game_elo items' g Hrange) as [msgs' ->].
      rewrite (existsb_Permutation _ _ _ Hperm). by eexists _, _, _.
    + exists false, [], []. by rewrite logged_nil.
  - unfold check_time_period. cbn [tag_strings].
    rewrite (check_time_period_loop_elo _ _ items),
      (check_time_period_loop_elo _ _ items').
    destruct (check_elo_loop_value candidate period items g Hperiod) as [msgs ->].
    destruct (check_elo_loop_value candidate period items' g Hperiod) as [msgs' ->].
    rewrite (existsb_Permutation _ _ _ Hperm). by eexists _, _, _.
Qed.

(** X24. On two numbers converted from unsigned, relative_numeric_match
    decides the relation of the integers: less, less or equal, greater,
    greater or equal, equal, not equal, each writing nothing. Called with
    NONE or REGEX it returns FALSE and writes an internal-error message. *)
Theorem relative_numeric_match_on_unsigned
    (op : TagOperator) (a b : Z) (g : Globals) :
  0 <= a < 2 ^ 32 -> 0 <= b < 2 ^ 32 ->
  relative_numeric_match op (double_of_unsigned a) (double_of_unsigned b) g =
  Returns (relation_holds op a b) (logged (comparison_diagnostic op) g) /\
  (relational op = true -> comparison_diagnostic op = []) /\
  (relational op = false ->
   relation_holds op a b = false /\ exists msg, comparison_diagnostic op = [msg]).
Proof.
  intros Ha Hb. split; [by apply relative_numeric_match_unsigned|].
  split; intros Hop; destruct op; try done; split; try done; by eexists.
Qed.

Lemma scan_digits_all_digits s : forall acc,
  all_chars isdigit s = true -> snd (scan_digits s acc) = "".
Proof.
  induction s as [|c s IH]; intros acc Hall; [done|].
  cbn [all_chars] in Hall. apply andb_prop in Hall as [Hc Hs].
  cbn [scan_digits]. rewrite Hc. by apply IH.
Qed.

(** X25. A date that is a year and nothing else, a non-empty string of
    digits, stands for the first of January of that year: sscanf finds no
    month and no day, both keep the value 1 they were given, and the
    magnitude check_date compares is that of year.1.1. *)
Theorem bare_year_is_first_of_January (date : string) :
  date <> "" -> all_chars isdigit date = true ->
  exists year,
    sscanf_u date = Some year /\
    sscanf_month_day date 1 1 = (1, 1) /\
    date_magnitude date = Some (encoded_date_value year 1 1).
Proof.
  intros Hnonempty Hdigits.
  destruct date as [|c rest]; [done|].
  pose proof Hdigits as Hall. cbn [all_chars] in Hdigits.
  apply andb_prop in Hdigits as [Hc _].
  assert (scan_unsigned (String c rest) =
          Some (to_unsigned (fst (scan_digits (String c rest) 0)), "")) as Hscan.
  { unfold scan_unsigned. cbn [skip_spaces].
    replace (isspace c) with false by (revert Hc; each_char c; by vm_compute).
    replace (Ascii.eqb c "-") with false by (revert Hc; each_char c; by vm_compute).
    replace (Ascii.eqb c "+") with false by (revert Hc; each_char c; by vm_compute).
    rewrite Hc.
    pose proof (scan_digits_all_digits (String c rest) 0 Hall) as Hrest.
    destruct (scan_digits (String c rest) 0) as [v unread]. cbn [fst snd] in *.
    by rewrite Hrest. }
  exists (to_unsigned (fst (scan_digits (String c rest) 0))).
  unfold date_magnitude, sscanf_u, sscanf_month_day. by rewrite Hscan.
Qed.

End DatesAndRatings.

(** ** More on the record selector *)

Lemma length_nonempty {A} (items : list A) :
  items <> [] -> (Z.of_nat (List.length items) =? 0) = false.
Proof. destruct items; [done|]. intros _. cbn [List.length]. apply Z.eqb_neq. lia. Qed.

Lemma bind_ext {A B} (m : Run A) (k k' : A -> Run B) g :
  (forall a g', k a g' = k' a g') -> bind m k g = bind m k' g.
Proof. intros Hk. unfold bind. destruct (m g); [apply Hk|done]. Qed.

Lemma logged_same_nil msgs g : logged msgs g = g -> msgs = [].
Proof.
  intros Hsame. apply (f_equal (fun g => logfile (GlobalState g))) in Hsame.
  cbn in Hsame. rewrite <- (app_nil_r (logfile (GlobalState g))) in Hsame at 2.
  by apply app_inv_head in Hsame.
Qed.

Section Selector.

Context {libc : Libc} {tags : TagCodes}.

Lemma check_list_plain_outcome tag tag_str array g verdict msgs :
  Forall (fun sel => operator sel = NONE) (tag_strings array) ->
  check_list tag tag_str array g = Returns verdict (logged msgs g) ->
  verdict =
    existsb (fun sel =>
               plain_test (tag_match_anywhere (GlobalState g))
                 (search_string g tag tag_str) (tag_string sel))
      (tag_strings array) /\
  msgs = [].
Proof.
  intros Hplain Hrun. rewrite check_list_plain_verdict in Hrun by done.
  injection Hrun as Hv Hg. split; [done|]. by eapply logged_same_nil.
Qed.

Lemma check_tags_from_false g0 Details remaining first g :
  check_tags_from g0 Details remaining first false g = Returns false g.
Proof. by destruct remaining. Qed.

(** The two pseudo-tag clauses return and write nothing but the log; what is
    left is the final loop. *)
Lemma check_tag_details_not_ECO_loop Details num_details g :
  check_tags (GlobalState g) = true ->
  tag_list_length g <= num_details ->
  exists wanted msgs,
    check_tag_details_not_ECO Details num_details g =
    check_tags_from g Details (Z.to_nat (tag_list_length g)) 0 wanted (logged msgs g) /\
    (num_used_elements (TagLists_at g PSEUDO_ELO_TAG) = 0 ->
     num_used_elements (TagLists_at g PSEUDO_PLAYER_TAG) = 0 ->
     wanted = true /\ msgs = []) /\
    (num_used_elements (TagLists_at g PSEUDO_ELO_TAG) = 0 ->
     Forall (fun sel => operator sel = NONE)
       (tag_strings (TagLists_at g PSEUDO_PLAYER_TAG)) ->
     tag_strings (TagLists_at g PSEUDO_PLAYER_TAG) <> [] ->
     wanted =
       value_matches g Details WHITE_TAG (tag_strings (TagLists_at g PSEUDO_PLAYER_TAG)) ||
       value_matches g Details BLACK_TAG (tag_strings (TagLists_at g PSEUDO_PLAYER_TAG)) /\
     msgs = []).
Proof.
  intros Hcheck Hcount.
  unfold check_tag_details_not_ECO, bind at 1, get_globals. rewrite Hcheck.
  unfold bind at 1. replace (num_details <? tag_list_length g) with false by lia.
  unfold ret at 1. unfold bind at 1.
  set (players := TagLists_at g PSEUDO_PLAYER_TAG).
  set (ratings := TagLists_at g PSEUDO_ELO_TAG).
  (* the either-player clause *)
  assert (exists w1 msgs1,
    (if negb (num_used_elements players =? 0)
     then
       match Details_at Details WHITE_TAG with
       | Some white =>
           let* wanted := check_list WHITE_TAG white players in
           match Details_at Details BLACK_TAG with
           | Some black =>
               if negb wanted then check_list BLACK_TAG black players else ret wanted
           | None => ret wanted
           end
       | None =>
           match Details_at Details BLACK_TAG with
           | Some black => check_list BLACK_TAG black players
           | None => ret false
           end
       end
     else ret true) g = Returns w1 (logged msgs1 g) /\
    (num_used_elements players = 0 -> w1 = true /\ msgs1 = []) /\
    (Forall (fun sel => operator sel = NONE) (tag_strings players) ->
     tag_strings players <> [] ->
     w1 = value_matches g Details WHITE_TAG (tag_strings players) ||
          value_matches g Details BLACK_TAG (tag_strings players) /\
     msgs1 = [])) as (w1 & msgs1 & -> & Hnone1 & Hplain1).
  { destruct (Z.eqb_spec (num_used_elements players) 0) as [Hempty|Hused]; cbn [negb].
    { exists true, []. rewrite logged_nil. split; [done|]. split; [done|].
      intros _ Hne. unfold num_used_elements in Hempty.
      destruct (tag_strings players); [done|]. cbn in Hempty. lia. }
    unfold value_matches.
    destruct (Details_at Details WHITE_TAG) as [white|].
    - unfold bind.
      destruct (check_list_returns WHITE_TAG white players g) as (v & msgs & Hwhite).
      rewrite Hwhite.
      destruct (Details_at Details BLACK_TAG) as [black|].
      + destruct v; cbn [negb].
        * exists true, msgs. split; [done|]. split; [done|]. intros Hplain _.
          destruct (check_list_plain_outcome _ _ _ _ _ _ Hplain Hwhite) as [<- ->].
          done.
        * destruct (check_list_returns BLACK_TAG black players (logged msgs g))
            as (v' & msgs' & Hblack).
          rewrite Hblack, logged_logged. eexists _, _. split; [done|]. split; [done|].
          intros Hplain _.
          destruct (check_list_plain_outcome _ _ _ _ _ _ Hplain Hwhite) as [<- ->].
          rewrite logged_nil in Hblack.
          destruct (check_list_plain_outcome _ _ _ _ _ _ Hplain Hblack) as [<- ->].
          done.
      + exists v, msgs. split; [done|]. split; [done|]. intros Hplain _.
        destruct (check_list_plain_outcome _ _ _ _ _ _ Hplain Hwhite) as [<- ->].
        by rewrite orb_false_r.
    - destruct (Details_at Details BLACK_TAG) as [black|].
      + destruct (check_list_returns BLACK_TAG black players g) as (v & msgs & Hblack).
        rewrite Hblack. exists v, msgs. split; [done|]. split; [done|]. intros Hplain _.
        by destruct (check_list_plain_outcome _ _ _ _ _ _ Hplain Hblack) as [<- ->].
      + exists false, []. by rewrite logged_nil. }
  (* the either-rating clause *)
  unfold bind at 1.
  destruct (Z.eqb_spec (num_used_elements ratings) 0) as [Hempty|Hused]; cbn [negb].
  { unfold ret at 1. exists w1, msgs1. split; [done|]. split; [auto|]. auto. }
  assert (forall g', exists w2 msgs2,
    match Details_at Details WHITE_ELO_TAG with
    | Some white_elo =>
        let* wanted := check_elo white_elo ratings in
        match Details_at Details BLACK_ELO_TAG with
        | Some black_elo =>
            if negb wanted then check_elo black_elo ratings else ret wanted
        | None => ret wanted
        end
    | None =>
        match Details_at Details BLACK_ELO_TAG with
        | Some black_elo => check_elo black_elo ratings
        | None => ret false
        end
    end g' = Returns w2 (logged msgs2 g')) as Hratings.
  { intros g'. destruct (Details_at Details WHITE_ELO_TAG) as [white_elo|].
    - unfold bind.
      destruct (check_elo_returns white_elo ratings g') as (v & msgs & ->).
      destruct (Details_at Details BLACK_ELO_TAG) as [black_elo|]; [|by eexists _, _].
      destruct (negb v); [|by eexists _, _].
      destruct (check_elo_returns black_elo ratings (logged msgs g')) as (v' & msgs' & ->).
      rewrite logged_logged. by eexists _, _.
    - destruct (Details_at Details BLACK_ELO_TAG) as [black_elo|];
        [apply check_elo_returns|exists false, []; by rewrite logged_nil]. }
  destruct (Hratings (logged msgs1 g)) as (w2 & msgs2 & ->).
  rewrite logged_logged. exists w2, (msgs1 ++ msgs2)%list.
  split; [done|]. split; intros; lia.
Qed.

Lemma check_tags_from_missing_value g0 Details tag remaining : forall first wanted g,
  first <= tag < first + Z.of_nat remaining ->
  tag <> PSEUDO_PLAYER_TAG -> tag <> PSEUDO_ELO_TAG -> tag <> ECO_TAG ->
  num_used_elements (TagLists_at g0 tag) <> 0 ->
  Details_at Details tag = None ->
  exists msgs,
    check_tags_from g0 Details remaining first wanted g = Returns false (logged msgs g).
Proof.
  induction remaining as [|remaining IH];
    intros first wanted g Hrange Hplayer Hrating Heco Hused Hmissing; [lia|].
  cbn [check_tags_from].
  destruct wanted; [|exists []; by rewrite logged_nil].
  unfold bind. destruct (decide (first = tag)) as [->|Hother].
  - unfold check_tag.
    replace (tag =? PSEUDO_PLAYER_TAG) with false by lia.
    replace (tag =? PSEUDO_ELO_TAG) with false by lia.
    replace (tag =? ECO_TAG) with false by lia.
    replace (num_used_elements (TagLists_at g0 tag) =? 0) with false by lia.
    cbn [negb]. rewrite Hmissing. unfold ret.
    rewrite check_tags_from_false. exists []. by rewrite logged_nil.
  - destruct (check_tag_returns g0 Details first true g) as (v & msgs & ->).
    destruct (IH (first + 1) v (logged msgs g)) as [msgs' ->]; try done; [lia|].
    rewrite logged_logged. by eexists.
Qed.

(** X18. A tag that has criteria but no value in the record rejects the
    record: if some tag below tag_list_length, other than the two pseudo
    tags and the ECO tag, has a non-empty list and Details holds NULL for
    it, check_tag_details_not_ECO returns FALSE, whatever the other tags
    and criteria are. *)
Theorem constrained_tag_without_value_rejects
    (Details : list (option string)) (num_details : Z) (g : Globals) (tag : Z) :
  check_tags (GlobalState g) = true ->
  tag_list_length g <= num_details ->
  0 <= tag < tag_list_length g ->
  tag <> PSEUDO_PLAYER_TAG -> tag <> PSEUDO_ELO_TAG -> tag <> ECO_TAG ->
  num_used_elements (TagLists_at g tag) <> 0 ->
  Details_at Details tag = None ->
  exists msgs,
    check_tag_details_not_ECO Details num_details g = Returns false (logged msgs g).
Proof.
  intros Hcheck Hcount Htag Hplayer Hrating Heco Hused Hmissing.
  destruct (check_tag_details_not_ECO_loop Details num_details g Hcheck Hcount)
    as (wanted & msgs & -> & _).
  destruct (check_tags_from_missing_value g Details tag
              (Z.to_nat (tag_list_length g)) 0 wanted (logged msgs g))
    as [msgs' ->]; try done; [lia|].
  rewrite logged_logged. by eexists.
Qed.

Lemma check_tag_same_details g0 Details Details' tag wanted :
  (forall other, other <> ECO_TAG -> Details_at Details other = Details_at Details' other) ->
  check_tag g0 Details tag wanted = check_tag g0 Details' tag wanted.
Proof.
  intros Hsame. unfold check_tag.
  destruct (tag =? PSEUDO_PLAYER_TAG); [done|].
  destruct (tag =? PSEUDO_ELO_TAG); [done|].
  destruct (Z.eqb_spec tag ECO_TAG); [done|].
  by rewrite Hsame.
Qed.

Lemma check_tags_from_same_details g0 Details Details' remaining :
  (forall other, other <> ECO_TAG -> Details_at Details other = Details_at Details' other) ->
  forall first wanted g,
  check_tags_from g0 Details remaining first wanted g =
  check_tags_from g0 Details' remaining first wanted g.
Proof.
  intros Hsame. induction remaining as [|remaining IH]; intros first wanted g; [done|].
  cbn [check_tags_from]. destruct wanted; [|done]. unfold bind.
  rewrite (check_tag_same_details g0 Details Details') by done.
  destruct (check_tag g0 Details' first true g); [apply IH|done].
Qed.

(** X19. check_tag_details_not_ECO never looks at the ECO value of the
    record: two records that agree on every tag but the ECO tag get the same
    outcome, verdict and log alike, whatever the registry holds. *)
Theorem ECO_value_is_not_consulted
    (Details Details' : list (option string)) (num_details : Z) (g : Globals) :
  (forall tag, tag <> ECO_TAG -> Details_at Details tag = Details_at Details' tag) ->
  check_tag_details_not_ECO Details num_details g =
  check_tag_details_not_ECO Details' num_details g.
Proof.
  intros Hsame.
  assert (ECO_TAG <> WHITE_TAG) by tags_differ 4%nat 12%nat.
  assert (ECO_TAG <> BLACK_TAG) by tags_differ 4%nat 1%nat.
  assert (ECO_TAG <> WHITE_ELO_TAG) by tags_differ 4%nat 13%nat.
  assert (ECO_TAG <> BLACK_ELO_TAG) by tags_differ 4%nat 2%nat.
  unfold check_tag_details_not_ECO.
  rewrite <- (Hsame WHITE_TAG), <- (Hsame BLACK_TAG), <- (Hsame WHITE_ELO_TAG),
    <- (Hsame BLACK_ELO_TAG) by done.
  apply bind_ext. intros g0 g'. destruct (check_tags (GlobalState g0)); [|done].
  apply bind_ext. intros _ g1. apply bind_ext. intros w1 g2.
  apply bind_ext. intros w2 g3. by apply check_tags_from_same_details.
Qed.

(** X20. With criteria without operator for the either-player tag, no
    either-rating criteria and no other constrained tag, a record is wanted
    exactly when the text test succeeds for the white player's name or for
    the black player's name; a missing name matches nothing, and a record
    with neither name is rejected. Nothing is logged. *)
Theorem either_player_is_white_or_black
    (Details : list (option string)) (num_details : Z) (g : Globals) :
  let players := tag_strings (TagLists_at g PSEUDO_PLAYER_TAG) in
  check_tags (GlobalState g) = true ->
  tag_list_length g <= num_details ->
  players <> [] ->
  Forall (fun sel => operator sel = NONE) players ->
  num_used_elements (TagLists_at g PSEUDO_ELO_TAG) = 0 ->
  (forall tag, 0 <= tag < tag_list_length g ->
     tag = PSEUDO_PLAYER_TAG \/ tag = PSEUDO_ELO_TAG \/ tag = ECO_TAG \/
     num_used_elements (TagLists_at g tag) = 0) ->
  check_tag_details_not_ECO Details num_details g =
  Returns
    (value_matches g Details WHITE_TAG players ||
     value_matches g Details BLACK_TAG players) g.
Proof.
  intros players Hcheck Hcount Hnonempty Hplain Hratings Hfree.
  destruct (check_tag_details_not_ECO_loop Details num_details g Hcheck Hcount)
    as (wanted & msgs & -> & _ & Hplayers).
  destruct (Hplayers Hratings Hplain Hnonempty) as [-> ->].
  rewrite logged_nil. apply check_tags_from_unconstrained.
  intros tag Htag. apply Hfree. lia.
Qed.

(** X21. Evaluation writes nothing but the log: whether they return or end
    the process, check_tag_details_not_ECO, check_ECO_tag and
    check_setup_tag leave TagLists, tag_list_length, the options of
    GlobalState, check_tags and the FEN patterns exactly as they found
    them. *)
Theorem evaluation_only_writes_the_log
    (Details : list (option string)) (num_details : Z) (g : Globals) :
  (exists msgs,
     globals_after (check_tag_details_not_ECO Details num_details g) = logged msgs g) /\
  (exists msgs, globals_after (check_ECO_tag Details g) = logged msgs g) /\
  (exists msgs, globals_after (check_setup_tag Details g) = logged msgs g).
Proof.
  split; [|split].
  - destruct (check_tags (GlobalState g)) eqn:Hcheck.
    + destruct (Z.lt_ge_cases num_details (tag_list_length g)) as [Hless|Hcount].
      * unfold check_tag_details_not_ECO, bind at 1, get_globals. rewrite Hcheck.
        unfold bind at 1. replace (num_details <? tag_list_length g) with true by lia.
        unfold bind, fprintf_logfile, exit. cbn [globals_after].
        rewrite logged_logged. by eexists.
      * destruct (check_tag_details_not_ECO_loop Details num_details g Hcheck Hcount)
          as (wanted & msgs & -> & _).
        destruct (check_tags_from_returns g Details (Z.to_nat (tag_list_length g)) 0
                    wanted (logged msgs g)) as (v & msgs' & ->).
        cbn [globals_after]. rewrite logged_logged. by eexists.
    + unfold check_tag_details_not_ECO, bind, get_globals. rewrite Hcheck.
      exists []. by rewrite logged_nil.
  - unfold check_ECO_tag, bind, get_globals.
    destruct (check_tags (GlobalState g)); [|exists []; by rewrite logged_nil].
    destruct (negb _); [|exists []; by rewrite logged_nil].
    destruct (Details_at Details ECO_TAG) as [eco|]; [|exists []; by rewrite logged_nil].
    destruct (check_list_returns ECO_TAG eco (TagLists_at g ECO_TAG) g) as (v & msgs & ->).
    by eexists.
  - unfold check_setup_tag, bind, get_globals.
    destruct (setup_status (GlobalState g)); try (exists []; by rewrite logged_nil).
    unfold fprintf_logfile, exit. by eexists.
Qed.

(** X22. check_ECO_tag never ends the process. While check_tags is set and
    the ECO tag has criteria, a record without an ECO value is rejected,
    and for criteria without operator a record with an ECO value is wanted
    exactly when the text test succeeds for it; while the ECO tag has no
    criteria every record is wanted. *)
Theorem check_ECO_tag_verdict (Details : list (option string)) (g : Globals) :
  let codes := tag_strings (TagLists_at g ECO_TAG) in
  (exists verdict msgs, check_ECO_tag Details g = Returns verdict (logged msgs g)) /\
  (codes = [] -> check_ECO_tag Details g = Returns true g) /\
  (check_tags (GlobalState g) = true -> codes <> [] ->
   Details_at Details ECO_TAG = None ->
   check_ECO_tag Details g = Returns false g) /\
  (check_tags (GlobalState g) = true -> codes <> [] ->
   Forall (fun sel => operator sel = NONE) codes ->
   check_ECO_tag Details g = Returns (value_matches g Details ECO_TAG codes) g).
Proof.
  intros codes. subst codes. unfold check_ECO_tag, bind, get_globals, num_used_elements.
  split; [|split; [|split]].
  - destruct (check_tags (GlobalState g)); [|exists true, []; by rewrite logged_nil].
    destruct (negb _); [|exists true, []; by rewrite logged_nil].
    destruct (Details_at Details ECO_TAG) as [eco|];
      [apply check_list_returns|exists false, []; by rewrite logged_nil].
  - intros ->. by destruct (check_tags (GlobalState g)).
  - intros -> Hcodes ->. by rewrite length_nonempty.
  - intros -> Hcodes Hplain. unfold value_matches.
    rewrite length_nonempty by done. cbn [negb].
    destruct (Details_at Details ECO_TAG) as [eco|]; [|done].
    by apply check_list_plain_verdict.
Qed.

Lemma check_tags_from_only g0 Details tag remaining : forall first wanted g,
  generic_tag tag ->
  tag_strings (TagLists_at g0 tag) <> [] ->
  Forall (fun sel => operator sel = NONE) (tag_strings (TagLists_at g0 tag)) ->
  (forall other, first <= other < first + Z.of_nat remaining -> other <> tag ->
     other = PSEUDO_PLAYER_TAG \/ other = PSEUDO_ELO_TAG \/ other = ECO_TAG \/
     num_used_elements (TagLists_at g0 other) = 0) ->
  check_tags_from g0 Details remaining first wanted g =
  Returns
    (wanted &&
     (if bool_decide (first <= tag < first + Z.of_nat remaining)
      then value_matches g Details tag (tag_strings (TagLists_at g0 tag))
      else true)) g.
Proof.
  induction remaining as [|remaining IH]; intros first wanted g Hgeneric Hused Hplain Hfree.
  - cbn [check_tags_from]. rewrite bool_decide_eq_false_2 by lia.
    by rewrite andb_true_r.
  - cbn [check_tags_from]. destruct wanted; [|done]. cbn [andb]. unfold bind.
    destruct Hgeneric as (Hp & He & Heco & Hdate & Hwe & Hbe & Htc).
    destruct (decide (first = tag)) as [->|Hother].
    + assert (check_tag g0 Details tag true g =
              Returns (value_matches g Details tag (tag_strings (TagLists_at g0 tag))) g)
        as ->.
      { unfold check_tag, value_matches.
        replace (tag =? PSEUDO_PLAYER_TAG) with false by lia.
        replace (tag =? PSEUDO_ELO_TAG) with false by lia.
        replace (tag =? ECO_TAG) with false by lia.
        unfold num_used_elements. rewrite length_nonempty by done.
        cbn [negb]. destruct (Details_at Details tag) as [value|]; [|done].
        replace (tag =? DATE_TAG) with false by lia.
        replace (tag =? WHITE_ELO_TAG) with false by lia.
        replace (tag =? BLACK_ELO_TAG) with false by lia.
        replace (tag =? TIME_CONTROL_TAG) with false by lia.
        cbn [orb]. by apply check_list_plain_verdict. }
      rewrite bool_decide_eq_true_2 by lia.
      destruct (value_matches _ _ _ _); [|apply check_tags_from_false].
      apply check_tags_from_unconstrained. intros other Hrange.
      apply Hfree; lia.
    + assert (check_tag g0 Details first true g = Returns true g) as ->.
      { unfold check_tag.
        destruct (Z.eqb_spec first PSEUDO_PLAYER_TAG); [done|].
        destruct (Z.eqb_spec first PSEUDO_ELO_TAG); [done|].
        destruct (Z.eqb_spec first ECO_TAG); [done|].
        destruct (Hfree first) as [?|[?|[?|Hempty]]]; [lia|done..|].
        by rewrite Hempty. }
      rewrite IH; try done.
      * cbn [andb]. f_equal.
        destruct (bool_decide (first + 1 <= tag < _)) eqn:Hlater.
        -- apply bool_decide_eq_true in Hlater. by rewrite bool_decide_eq_true_2 by lia.
        -- apply bool_decide_eq_false in Hlater. by rewrite bool_decide_eq_false_2 by lia.
      * intros other Hrange. apply Hfree. lia.
Qed.

(** X23. Registration and evaluation fit together: on a registry without
    criteria, after add_tag_to_list has registered one pattern without
    operator for a tag that check_list is in charge of, a record is wanted
    exactly when its value for that tag passes the text test against the
    stored pattern, with the soundex code on both sides where soundex
    matching applies; a record without a value for the tag is rejected. *)
Theorem registered_pattern_selects
    (tag : Z) (pattern : string) (g : Globals) :
  registry_ok g ->
  (forall other, tag_strings (TagLists_at g other) = []) ->
  0 <= tag -> tag <> FEN_TAG -> generic_tag tag ->
  exists g',
    add_tag_to_list tag pattern NONE g = Returns tt g' /\
    forall Details num_details,
      tag_list_length g' <= num_details ->
      check_tag_details_not_ECO Details num_details g' =
      Returns
        (match Details_at Details tag with
         | Some value =>
             plain_test (tag_match_anywhere (GlobalState g))
               (search_string g tag value) (string_to_store g tag pattern)
         | None => false
         end) g'.
Proof.
  intros Hok Hfresh Htag Hfen Hgeneric.
  destruct (add_tag_to_list_valid_tag tag pattern NONE g Hok Htag Hfen)
    as (g' & Hrun & Hlist & Hothers & Hlen & Hstate & _ & Hok').
  exists g'. split; [done|]. intros Details num_details Hcount.
  rewrite Hfresh in Hlist. cbn [app] in Hlist.
  assert (check_tags (GlobalState g') = true) as Hcheck by (by rewrite Hstate).
  pose proof Hgeneric as (Hp & He & _).
  assert (forall other, other <> tag -> num_used_elements (TagLists_at g' other) = 0)
    as Hempty.
  { intros other Hother. unfold num_used_elements.
    by rewrite (Hothers other Hother), Hfresh. }
  destruct (check_tag_details_not_ECO_loop Details num_details g' Hcheck Hcount)
    as (wanted & msgs & -> & Hnone & _).
  destruct Hnone as [-> ->]; [by apply Hempty..|].
  rewrite logged_nil, (check_tags_from_only g' Details tag); try done.
  - rewrite bool_decide_eq_true_2.
    2:{ pose proof (registry_ok_length g Hok). lia. }
    cbn [andb]. unfold value_matches. rewrite Hlist. cbn [existsb tag_string].
    f_equal. destruct (Details_at Details tag) as [value|]; [|done].
    rewrite orb_false_r. unfold search_string. by rewrite Hstate.
  - by rewrite Hlist.
  - rewrite Hlist. by repeat constructor.
  - intros other _ Hother. right. right. right. by apply Hempty.
Qed.

End Selector.

(** * The theorems at work

    Each general statement above is applied here to a concrete registry and
    record, computed with the instances [exact_libc] and
    [alphabetical_tags]. *)

#[local] Existing Instance exact_libc.
#[local] Existing Instance alphabetical_tags.

Lemma soundex_case_insensitive_J_Y_bounded_witness :
  soundex "Yusupov" = soundex "yUSUPOV" /\
  soundex "jusupov" = String "7" (soundex_scan "usupov" 1 " ").
Proof.
  destruct (soundex_case_insensitive_J_Y_bounded "Yusupov" "yUSUPOV")
    as (Hcase & _).
  destruct (soundex_case_insensitive_J_Y_bounded "usupov" "")
    as (_ & _ & _ & Hfirst & _).
  split.
  - apply Hcase. reflexivity.
  - apply Hfirst. cbn. tauto.
Defined.

Lemma numeric_classifier_exact_witness :
  numeric_shaped "-12.5" /\
  check_list 8 ""
    {| num_allocated_elements := 10;
       tag_strings := [{| tag_string := "2500"; operator := LESS_THAN |}] |}
    (startup false false) = Returns true (startup false false).
Proof.
  split.
  - apply (numeric_classifier_exact "-12.5").
    reflexivity.
  - apply (numeric_classifier_exact "");
      reflexivity.
Defined.

Lemma elo_and_time_period_first_success_witness :
  check_elo "2750"
    {| num_allocated_elements := 10;
       tag_strings := [{| tag_string := "2800"; operator := GREATER_THAN |};
                       {| tag_string := "27"; operator := NONE |};
                       {| tag_string := "2900"; operator := LESS_THAN |}] |}
    (startup false false) =
  check_elo "2750"
    {| num_allocated_elements := 10;
       tag_strings := [{| tag_string := "2800"; operator := GREATER_THAN |};
                       {| tag_string := "27"; operator := NONE |}] |}
    (startup false false).
Proof.
  refine (proj1 (proj1 (proj2 (proj2
    (elo_and_time_period_first_success "2750" 2750 10
       [{| tag_string := "2800"; operator := GREATER_THAN |};
        {| tag_string := "27"; operator := NONE |};
        {| tag_string := "2900"; operator := LESS_THAN |}]
       (startup false false) _)))
    [{| tag_string := "2800"; operator := GREATER_THAN |}]
    {| tag_string := "27"; operator := NONE |}
    [{| tag_string := "2900"; operator := LESS_THAN |}] _ _) _);
    [cbn; lia | reflexivity | reflexivity | reflexivity].
Defined.

Lemma date_letters_and_relational_conjunction_witness :
  date_selection {| tag_string := "1990"; operator := GREATER_THAN |} =
    (GREATER_THAN, "1990") /\
  exists verdict msgs msgs',
    check_date "1995.06.01"
      {| num_allocated_elements := 10;
         tag_strings := [{| tag_string := "a1990"; operator := NONE |}] |}
      (startup false false) =
    Returns verdict (logged msgs (startup false false)) /\
    check_date "1995.06.01"
      {| num_allocated_elements := 10;
         tag_strings := [{| tag_string := "a1990"; operator := NONE |};
                         {| tag_string := "b2000"; operator := NONE |}] |}
      (startup false false) =
    Returns
      (verdict &&
       date_relation_holds "1995.06.01" {| tag_string := "b2000"; operator := NONE |})
      (logged msgs' (startup false false)).
Proof.
  destruct (date_letters_and_relational_conjunction
              "1995.06.01" 10 [{| tag_string := "a1990"; operator := NONE |}]
              {| tag_string := "b2000"; operator := NONE |} (startup false false))
    as (_ & _ & Hother & Hand & _).
  split.
  - apply Hother; cbn; discriminate.
  - apply Hand. cbn. discriminate.
Defined.

Lemma time_control_cut_shape_period_witness :
  check_time_control "-" empty_StringArray (startup false false) =
    Returns false (startup false false) /\
  exists msgs,
    check_time_control "40/7200:20/3600"
      {| num_allocated_elements := 10;
         tag_strings := [{| tag_string := "3600"; operator := GREATER_THAN |}] |}
      (startup false false) =
    Returns
      (existsb (criterion_succeeds "40/7200" 7200)
         [{| tag_string := "3600"; operator := GREATER_THAN |}])
      (logged msgs (startup false false)).
Proof.
  split.
  - exact (proj1 (proj2 (time_control_cut_shape_period "-"
             empty_StringArray (startup false false))) eq_refl).
  - pose proof (proj1 (proj2 (proj2 (time_control_cut_shape_period
             "40/7200:20/3600"
             {| num_allocated_elements := 10;
                tag_strings := [{| tag_string := "3600"; operator := GREATER_THAN |}] |}
             (startup false false)))) eq_refl) as H.
    change (time_control_period (cut_at ":" "40/7200:20/3600")) with (Some 7200) in H.
    exact (proj2 H).
Defined.

Lemma regex_only_list_takes_range_pass_witness :
  regex_pass "123" [{| tag_string := "^9"; operator := REGEX |}] false
    = false /\
  check_list 8 "123"
    {| num_allocated_elements := 10;
       tag_strings := [{| tag_string := "^9"; operator := REGEX |}] |}
    (startup false false) =
  Returns true (logged [missing_case_in_check_list] (startup false false)).
Proof.
  split; [reflexivity|].
  apply (regex_only_list_takes_range_pass 8 "123"
           {| num_allocated_elements := 10;
              tag_strings := [{| tag_string := "^9"; operator := REGEX |}] |}
           (startup false false)).
  - reflexivity.
  - discriminate.
  - repeat constructor.
Defined.

Lemma plain_test_disregards_operator_witness :
  relation_holds LESS_THAN 401 40 = false /\
  check_list 8 "401"
    {| num_allocated_elements := 10;
       tag_strings := [{| tag_string := "40"; operator := LESS_THAN |}] |}
    (startup false false) =
  Returns true (startup false false).
Proof.
  split; [reflexivity|].
  apply (plain_test_disregards_operator 8 "401"
           {| num_allocated_elements := 10;
              tag_strings := [{| tag_string := "40"; operator := LESS_THAN |}] |}
           (startup false false)).
  reflexivity.
Defined.

Lemma either_rating_replaces_either_player_witness :
  let g := configured false false
             [(PSEUDO_PLAYER_TAG, "Kasparov", NONE);
              (PSEUDO_ELO_TAG, "2700", GREATER_THAN)] in
  let Details := record_of 16
             [(WHITE_TAG, "Karpov"); (BLACK_TAG, "Short"); (WHITE_ELO_TAG, "2750")] in
  check_list WHITE_TAG "Karpov" (TagLists_at g PSEUDO_PLAYER_TAG) g = Returns false g /\
  check_list BLACK_TAG "Short" (TagLists_at g PSEUDO_PLAYER_TAG) g = Returns false g /\
  exists msgs, check_tag_details_not_ECO Details 16 g = Returns true (logged msgs g).
Proof.
  intros g Details. split; [reflexivity|]. split; [reflexivity|].
  apply (either_rating_replaces_either_player Details 16 g "2750" 2750).
  - reflexivity.
  - by vm_compute.
  - change (tag_list_length g) with 16. intros tag Htag.
    assert (Hcases : Exists (eq tag) (seqZ 0 16)).
    { apply Exists_exists. exists tag. split; [|done]. apply elem_of_seqZ. lia. }
    vm_compute in Hcases.
    repeat (apply Exists_cons in Hcases as [->|Hcases]; [vm_compute; tauto|]).
    by apply Exists_nil in Hcases.
  - reflexivity.
  - reflexivity.
  - reflexivity.
Defined.


(** The same registry and record, run: the either-player clause fails on
    both names and the record is nevertheless wanted. *)
Example karpov_short_record_wanted :
  let g := configured false false
             [(PSEUDO_PLAYER_TAG, "Kasparov", NONE);
              (PSEUDO_ELO_TAG, "2700", GREATER_THAN)] in
  let Details := record_of 16
             [(WHITE_TAG, "Karpov"); (BLACK_TAG, "Short"); (WHITE_ELO_TAG, "2750")] in
  check_tag_details_not_ECO Details 16 g = Returns true g.
Proof. by vm_compute. Qed.

(** With the either-player criterion alone the same record is rejected, and
    a record whose black player is Kasparov is accepted, with or without a
    white player. *)
Example either_player_alone :
  let g := configured false false [(PSEUDO_PLAYER_TAG, "Kasparov", NONE)] in
  check_tag_details_not_ECO
    (record_of 16 [(WHITE_TAG, "Karpov"); (BLACK_TAG, "Short"); (WHITE_ELO_TAG, "2750")])
    16 g = Returns false g /\
  check_tag_details_not_ECO (record_of 16 [(BLACK_TAG, "Kasparov")]) 16 g =
    Returns true g /\
  check_tag_details_not_ECO
    (record_of 16 [(WHITE_TAG, "Karpov"); (BLACK_TAG, "Kasparov")]) 16 g =
    Returns true g /\
  check_tag_details_not_ECO (record_of 16 []) 16 g = Returns false g.
Proof. by vm_compute. Qed.

(** C4 does not extend to a tag count above tag_list_length: with one
    criterion registered, tag_list_length is 16, the tag count is 17, and
    check_tag_details_not_ECO returns a verdict instead of exiting. *)
Lemma tag_count_above_registry_is_accepted :
  let g := configured false false [(WHITE_TAG, "Smith", NONE)] in
  check_tags (GlobalState g) = true /\
  tag_list_length g = 16 /\
  check_tag_details_not_ECO (record_of 17 [(WHITE_TAG, "Smith, John")]) 17 g =
    Returns true g.
Proof. by vm_compute. Qed.

Lemma tag_count_below_registry_is_fatal_witness :
  let g := configured false false [(WHITE_TAG, "Smith", NONE)] in
  check_tag_details_not_ECO (record_of 15 [(WHITE_TAG, "Smith, John")]) 15 g =
    Exits 1
      (logged ["Internal error: mismatch in tag set lengths in ";
               "CheckTagDetailsNotECO: 15 vs 16" ++ newline] g) /\
  exists verdict msgs,
    check_tag_details_not_ECO (record_of 17 [(WHITE_TAG, "Smith, John")]) 17 g =
    Returns verdict (logged msgs g).
Proof.
  intros g. split.
  - apply (tag_count_below_registry_is_fatal
             (record_of 15 [(WHITE_TAG, "Smith, John")]) 15 g); [reflexivity|].
    by vm_compute.
  - apply (tag_count_below_registry_is_fatal
             (record_of 17 [(WHITE_TAG, "Smith, John")]) 17 g); [reflexivity|].
    by vm_compute.
Defined.

Lemma no_criteria_every_record_wanted_witness :
  let g := configured false false [] in
  check_tag_details_not_ECO (record_of 16 []) 16 g = Returns true g /\
  check_ECO_tag (record_of 16 []) g = Returns true g /\
  check_tag_details_not_ECO [] 0 (startup true true) = Returns true (startup true true).
Proof.
  intros g. split; [|split].
  - apply (no_criteria_every_record_wanted (record_of 16 []) 16 g). reflexivity.
  - apply (no_criteria_every_record_wanted (record_of 16 []) 16 g). reflexivity.
  - apply (no_criteria_every_record_wanted [] 0 (startup true true)). reflexivity.
Defined.

(** The date criteria of C5 registered for the date tag, and the three
    records run through check_tag_details_not_ECO. *)
Example dates_between_1990_and_2000 :
  let g := configured false false
             [(DATE_TAG, "1990", GREATER_THAN); (DATE_TAG, "2000", LESS_THAN)] in
  check_tag_details_not_ECO (record_of 16 [(DATE_TAG, "1995.06.01")]) 16 g =
    Returns true g /\
  check_tag_details_not_ECO (record_of 16 [(DATE_TAG, "2005.01.01")]) 16 g =
    Returns false g /\
  check_tag_details_not_ECO (record_of 16 [(DATE_TAG, "1985.01.01")]) 16 g =
    Returns false g.
Proof. by vm_compute. Qed.

(** The rating criteria of C6 registered for the white rating. *)
Example rating_above_2700_or_2800 :
  let g := configured false false
             [(WHITE_ELO_TAG, "2700", GREATER_THAN);
              (WHITE_ELO_TAG, "2800", GREATER_THAN)] in
  check_tag_details_not_ECO (record_of 16 [(WHITE_ELO_TAG, "2750")]) 16 g =
    Returns true g.
Proof. by vm_compute. Qed.

(** ** The further properties at work *)

(** The tags of a registry of 16 lists, for case analysis. *)
Ltac each_tag_below_16 tag Htag :=
  let Hcases := fresh "Hcases" in
  assert (Hcases : Exists (eq tag) (seqZ 0 16))
    by (apply Exists_exists; exists tag; split; [apply elem_of_seqZ; lia|done]);
  vm_compute in Hcases;
  repeat (apply Exists_cons in Hcases as [->|Hcases]; [vm_compute; tauto|]);
  by apply Exists_nil in Hcases.

Lemma add_to_taglist_appends_witness :
  fst (add_to_taglist "Tal"
         {| num_allocated_elements := 10;
            tag_strings := [{| tag_string := "Smith"; operator := NONE |}] |}) = 1.
Proof.
  pose proof (add_to_taglist_appends "Tal"
                {| num_allocated_elements := 10;
                   tag_strings := [{| tag_string := "Smith"; operator := NONE |}] |}) as H.
  destruct (add_to_taglist _ _) as [ix array'].
  destruct H as [-> _]; [by vm_compute|reflexivity].
Defined.

Lemma add_tag_to_list_stores_witness :
  let g := configured false false [(WHITE_TAG, "Smith", NONE)] in
  exists g',
    add_tag_to_list WHITE_TAG "Jones" GREATER_THAN g = Returns tt g' /\
    tag_strings (TagLists_at g' WHITE_TAG) =
      [{| tag_string := "Smith"; operator := NONE |};
       {| tag_string := "Jones"; operator := GREATER_THAN |}].
Proof.
  intros g.
  destruct (add_tag_to_list_stores WHITE_TAG "Jones" GREATER_THAN g)
    as (g' & Hrun & Hlist & _);
    [apply configured_registry_ok | cbn; lia | discriminate |].
  exists g'. split; [exact Hrun|exact Hlist].
Defined.

Lemma add_tag_to_list_refuses_negative_tag_witness :
  let g := configured false false [(WHITE_TAG, "Smith", NONE)] in
  add_tag_to_list (-1) "Jones" NONE g =
  Returns tt (logged ["Illegal tag number -1 in add_tag_to_list." ++ newline] g).
Proof.
  intros g. apply (add_tag_to_list_refuses_negative_tag (-1) "Jones" NONE g).
  - by vm_compute.
  - lia.
Defined.

Lemma add_tag_to_list_forwards_FEN_witness :
  let g := configured false false [(WHITE_TAG, "Smith", NONE)] in
  exists g',
    add_tag_to_list FEN_TAG "8/8/8/8/8/8/8/8" NONE g = Returns tt g' /\
    fen_pattern_matches g' = ["8/8/8/8/8/8/8/8"] /\
    registry_ok g'.
Proof.
  intros g.
  destruct (add_tag_to_list_forwards_FEN "8/8/8/8/8/8/8/8" NONE g)
    as (g' & Hrun & Hfen & _ & _ & Hok).
  exists g'. split; [exact Hrun|]. split; [exact Hfen|].
  apply Hok, configured_registry_ok.
Defined.

Lemma extend_tag_list_length_never_shrinks_witness :
  let g := configured false false [] in
  (exists g', extend_tag_list_length 5 g = Exits 1 g') /\
  (exists g', extend_tag_list_length 16 g = Returns tt g' /\ tag_list_length g' = 16) /\
  (exists g', extend_tag_list_length 20 g = Returns tt g' /\ tag_list_length g' = 20).
Proof.
  intros g. split; [|split].
  - eexists. apply (extend_tag_list_length_never_shrinks 5 g). by vm_compute.
  - destruct (proj2 (extend_tag_list_length_never_shrinks 16 g))
      as (g' & Hrun & Hlen & _); [by vm_compute|]. by exists g'.
  - destruct (proj2 (extend_tag_list_length_never_shrinks 20 g))
      as (g' & Hrun & Hlen & _); [by vm_compute|]. by exists g'.
Defined.

Lemma extract_tag_argument_unknown_letter_witness :
  let g := configured false false [] in
  extract_tag_argument "xSmith" g =
    Exits 1 (logged ["Unknown type of tag extraction argument: xSmith" ++ newline] g) /\
  exists g', extract_tag_argument "wSmith" g = Returns tt g'.
Proof.
  intros g. split.
  - apply (extract_tag_argument_unknown_letter "xSmith" g). reflexivity.
  - apply (extract_tag_argument_unknown_letter "wSmith" g). reflexivity.
Defined.

Lemma check_list_without_operators_witness :
  check_list RESULT_TAG "1-0"
    {| num_allocated_elements := 10;
       tag_strings := [{| tag_string := "0-1"; operator := NONE |};
                       {| tag_string := "1-0"; operator := NONE |}] |}
    (startup false false) = Returns true (startup false false).
Proof.
  apply (check_list_without_operators RESULT_TAG "1-0"
           {| num_allocated_elements := 10;
              tag_strings := [{| tag_string := "0-1"; operator := NONE |};
                              {| tag_string := "1-0"; operator := NONE |}] |}
           (startup false false)).
  by repeat constructor.
Defined.

Lemma check_list_regular_expressions_witness :
  check_list EVENT_TAG "Linares 1993"
    {| num_allocated_elements := 10;
       tag_strings := [{| tag_string := "1993"; operator := REGEX |};
                       {| tag_string := "1994"; operator := GREATER_THAN |}] |}
    (startup false false) = Returns true (startup false false).
Proof.
  rewrite (check_list_regular_expressions EVENT_TAG "Linares 1993"
             {| num_allocated_elements := 10;
                tag_strings := [{| tag_string := "1993"; operator := REGEX |};
                                {| tag_string := "1994"; operator := GREATER_THAN |}] |}
             (startup false false)); reflexivity.
Defined.

Lemma check_list_relational_conjunction_witness :
  check_list HASHCODE_TAG "40"
    {| num_allocated_elements := 10;
       tag_strings := [{| tag_string := "30"; operator := GREATER_THAN |};
                       {| tag_string := "50"; operator := LESS_THAN |}] |}
    (startup false false) = Returns true (startup false false).
Proof.
  rewrite (check_list_relational_conjunction HASHCODE_TAG "40"
             {| num_allocated_elements := 10;
                tag_strings := [{| tag_string := "30"; operator := GREATER_THAN |};
                                {| tag_string := "50"; operator := LESS_THAN |}] |}
             (startup false false));
    [reflexivity | reflexivity | discriminate | by repeat constructor | reflexivity].
Defined.

Lemma anywhere_accepts_what_prefix_accepts_witness :
  exists g',
    check_list WHITE_TAG "Smith, John"
      {| num_allocated_elements := 10;
         tag_strings := [{| tag_string := "Smith"; operator := NONE |}] |}
      (set_tag_match_anywhere true (startup false false)) = Returns true g'.
Proof.
  apply (anywhere_accepts_what_prefix_accepts WHITE_TAG "Smith, John"
           {| num_allocated_elements := 10;
              tag_strings := [{| tag_string := "Smith"; operator := NONE |}] |}
           (startup false false)).
  by eexists.
Defined.

Lemma check_date_without_operators_witness :
  check_date "1995.06.01"
    {| num_allocated_elements := 10;
       tag_strings := [{| tag_string := "1994"; operator := NONE |};
                       {| tag_string := "1995.06"; operator := NONE |}] |}
    (startup false false) = Returns true (startup false false) /\
  check_date "????.??.??"
    {| num_allocated_elements := 10;
       tag_strings := [{| tag_string := "????"; operator := NONE |}] |}
    (startup false false) = Returns false (startup false false).
Proof.
  split.
  - apply (check_date_without_operators "1995.06.01"
             {| num_allocated_elements := 10;
                tag_strings := [{| tag_string := "1994"; operator := NONE |};
                                {| tag_string := "1995.06"; operator := NONE |}] |}
             (startup false false)).
    by repeat constructor.
  - apply (check_date_without_operators "????.??.??"
             {| num_allocated_elements := 10;
                tag_strings := [{| tag_string := "????"; operator := NONE |}] |}
             (startup false false)).
    by repeat constructor.
Defined.

Lemma check_date_year_out_of_range_witness :
  exists msgs,
    check_date "95.06.01"
      {| num_allocated_elements := 10;
         tag_strings := [{| tag_string := "95"; operator := NONE |};
                         {| tag_string := "a90"; operator := NONE |}] |}
      (startup false false) = Returns false (logged msgs (startup false false)).
Proof.
  apply (check_date_year_out_of_range "95.06.01" 95 10
           [{| tag_string := "95"; operator := NONE |}]
           {| tag_string := "a90"; operator := NONE |} (startup false false)).
  - reflexivity.
  - left. by vm_compute.
  - discriminate.
Defined.

Lemma encoded_date_value_order_witness :
  encoded_date_value 1995 6 1 < encoded_date_value 1995 12 31 /\
  encoded_date_value 1995 12 31 < encoded_date_value 1996 1 1.
Proof.
  split.
  - apply (encoded_date_value_order 1995 6 1 1995 12 31); lia.
  - apply (encoded_date_value_order 1995 12 31 1996 1 1); lia.
Defined.

Lemma rating_criteria_order_irrelevant_witness :
  exists verdict msgs msgs',
    check_elo "2750"
      {| num_allocated_elements := 10;
         tag_strings := [{| tag_string := "2800"; operator := GREATER_THAN |};
                         {| tag_string := "2700"; operator := GREATER_THAN |}] |}
      (startup false false) = Returns verdict (logged msgs (startup false false)) /\
    check_elo "2750"
      {| num_allocated_elements := 10;
         tag_strings := [{| tag_string := "2700"; operator := GREATER_THAN |};
                         {| tag_string := "2800"; operator := GREATER_THAN |}] |}
      (startup false false) = Returns verdict (logged msgs' (startup false false)).
Proof.
  apply (rating_criteria_order_irrelevant "2750" 0 10
           [{| tag_string := "2800"; operator := GREATER_THAN |};
            {| tag_string := "2700"; operator := GREATER_THAN |}]
           [{| tag_string := "2700"; operator := GREATER_THAN |};
            {| tag_string := "2800"; operator := GREATER_THAN |}]
           (startup false false)).
  - apply Permutation_swap.
  - cbn. lia.
Defined.

(** The order of date criteria does matter: the same two criteria, in the
    two orders. *)
Example date_criteria_order_matters :
  check_date "1995.06.01"
    {| num_allocated_elements := 10;
       tag_strings := [{| tag_string := "1995"; operator := NONE |};
                       {| tag_string := "2000"; operator := GREATER_THAN |}] |}
    (startup false false) = Returns false (startup false false) /\
  check_date "1995.06.01"
    {| num_allocated_elements := 10;
       tag_strings := [{| tag_string := "2000"; operator := GREATER_THAN |};
                       {| tag_string := "1995"; operator := NONE |}] |}
    (startup false false) = Returns true (startup false false).
Proof. by vm_compute. Qed.

Lemma constrained_tag_without_value_rejects_witness :
  let g := configured false false
             [(WHITE_TAG, "Smith", NONE); (RESULT_TAG, "1-0", NONE)] in
  exists msgs,
    check_tag_details_not_ECO (record_of 16 [(WHITE_TAG, "Smith, John")]) 16 g =
    Returns false (logged msgs g).
Proof.
  intros g.
  apply (constrained_tag_without_value_rejects
           (record_of 16 [(WHITE_TAG, "Smith, John")]) 16 g RESULT_TAG);
    try reflexivity; try discriminate; by vm_compute.
Defined.

Lemma ECO_value_is_not_consulted_witness :
  let g := configured false false [(ECO_TAG, "B9", NONE); (WHITE_TAG, "Smith", NONE)] in
  check_tag_details_not_ECO (record_of 16 [(ECO_TAG, "B90")]) 16 g =
  check_tag_details_not_ECO (record_of 16 [(ECO_TAG, "C42")]) 16 g.
Proof.
  intros g. apply ECO_value_is_not_consulted. intros tag Htag.
  unfold Details_at. destruct (Z.ltb_spec tag 0); [done|].
  unfold record_of. cbn [foldr fst snd].
  change (Z.to_nat ECO_TAG) with 4%nat. change ECO_TAG with 4 in Htag.
  by rewrite !(list_lookup_insert_ne _ 4%nat) by lia.
Defined.

Lemma either_player_is_white_or_black_witness :
  let g := configured false false [(PSEUDO_PLAYER_TAG, "Kasparov", NONE)] in
  check_tag_details_not_ECO
    (record_of 16 [(WHITE_TAG, "Karpov"); (BLACK_TAG, "Kasparov")]) 16 g =
  Returns true g.
Proof.
  intros g.
  pose proof (either_player_is_white_or_black
                (record_of 16 [(WHITE_TAG, "Karpov"); (BLACK_TAG, "Kasparov")]) 16 g)
    as Hverdict.
  cbv zeta in Hverdict. rewrite Hverdict.
  - reflexivity.
  - reflexivity.
  - by vm_compute.
  - discriminate.
  - by repeat constructor.
  - reflexivity.
  - change (tag_list_length g) with 16. intros tag Htag. each_tag_below_16 tag Htag.
Defined.

Lemma check_ECO_tag_verdict_witness :
  let g := configured false false [(ECO_TAG, "B9", NONE)] in
  check_ECO_tag (record_of 16 [(WHITE_TAG, "Smith")]) g = Returns false g /\
  check_ECO_tag (record_of 16 [(ECO_TAG, "B90")]) g = Returns true g.
Proof.
  intros g. split.
  - apply (proj1 (proj2 (proj2 (check_ECO_tag_verdict
             (record_of 16 [(WHITE_TAG, "Smith")]) g))));
      [reflexivity | discriminate | reflexivity].
  - rewrite (proj2 (proj2 (proj2 (check_ECO_tag_verdict
               (record_of 16 [(ECO_TAG, "B90")]) g))));
      [reflexivity | reflexivity | discriminate | by repeat constructor].
Defined.

Lemma registered_pattern_selects_witness :
  let g := configured true false [] in
  exists g',
    add_tag_to_list WHITE_TAG "Nimzovich" NONE g = Returns tt g' /\
    check_tag_details_not_ECO (record_of 16 [(WHITE_TAG, "Nimzowitsch, Aron")]) 16 g' =
    Returns true g'.
Proof.
  intros g.
  destruct (registered_pattern_selects WHITE_TAG "Nimzovich" g) as (g' & Hrun & Hselect).
  - apply configured_registry_ok.
  - intros other. unfold TagLists_at. destruct (other <? 0); [done|].
    change (TagLists g) with (replicate 16 empty_StringArray).
    destruct (replicate _ _ !! _) eqn:Hlookup; [|done].
    by apply lookup_replicate in Hlookup as [-> _].
  - by vm_compute.
  - discriminate.
  - by repeat split.
  - exists g'. split; [exact Hrun|].
    rewrite (Hselect (record_of 16 [(WHITE_TAG, "Nimzowitsch, Aron")]) 16).
    + reflexivity.
    + assert (tag_list_length g' = 16) as ->; [|lia].
      by injection Hrun as <-.
Defined.

Lemma relative_numeric_match_on_unsigned_witness :
  relative_numeric_match GREATER_THAN_OR_EQUAL_TO
    (double_of_unsigned 2750) (double_of_unsigned 2700) (startup false false) =
  Returns true (startup false false).
Proof.
  rewrite (proj1 (relative_numeric_match_on_unsigned GREATER_THAN_OR_EQUAL_TO
                    2750 2700 (startup false false)
                    ltac:(cbn; lia) ltac:(cbn; lia))).
  reflexivity.
Defined.

Lemma bare_year_is_first_of_January_witness :
  date_magnitude "1990" = Some 19900101.
Proof.
  destruct (bare_year_is_first_of_January "1990") as (year & Hyear & _ & Hmagnitude);
    [discriminate | reflexivity |].
  rewrite Hmagnitude. injection Hyear as <-. reflexivity.
Defined.
